(** * ICE OUT: sighting lifecycle and trust escalation

    A shallow embedding of the validation / status-promotion core of the
    repository:

    - [supabase/migrations/*_init_iceout.sql] and
      [supabase/migrations/20260129210000_validations_profiles_status.sql]:
      the tables [sightings], [validations], [profiles], their constraints,
      row-level-security policies and the trigger function
      [recompute_sighting_validations];
    - [components/Sighting/SightingDrawer.tsx]: [handleValidate] and
      [handleConfirm] (current and legacy revision);
    - [lib/privacy/hash.ts]: [generateValidatorHash].

    Tables are finite maps keyed by their primary key ([gmap]) or, for
    [validations], the list of rows in insertion order.  Statements of the
    store take the database as an explicit argument and return the new
    database, or the PostgreSQL error that rolled the statement back. *)

From Stdlib Require Import ZArith QArith Qround Qabs Ascii String.
From Stdlib Require Import Sorted.
From stdpp Require Import base option list gmap strings.

Local Open Scope string_scope.
Local Open Scope Z_scope.

(** ** Column types *)

(** [sightings_status_chk]: status in ('unverified','verified','active','confirmed') *)
Inductive SightingStatus := unverified | verified | active | confirmed.

(** [profiles_role_chk]: role in ('anonymous','trusted','admin') *)
Inductive ProfileRole := anonymous | trusted | admin.

#[global] Instance SightingStatus_eq_dec : EqDecision SightingStatus.
Proof. solve_decision. Defined.

#[global] Instance ProfileRole_eq_dec : EqDecision ProfileRole.
Proof. solve_decision. Defined.

(** One element of the [media] jsonb array. *)
Record MediaItem := mkMediaItem { path : string; type : string }.

(** ** Rows *)

Module Sighting.
(** [public.sightings]; [lat]/[lng] are finite double-precision values,
    kept as the rationals they denote.  [media] is a JSON array (the insert
    policy demands [jsonb_typeof(media) = 'array']). *)
Record t := mk {
  id : string;
  created_at : Z;
  event_time : Z;
  lat : Q;
  lng : Q;
  activity_type : string;
  notes : option string;
  media : list MediaItem;
  status : SightingStatus;
  validations_count : Z
}.
End Sighting.

Module Validation.
(** [public.validations] after both migrations. *)
Record t := mk {
  id : string;
  created_at : Z;
  sighting_id : string;
  validator_hash : option string;
  validator_lat : option Q;
  validator_lng : option Q;
  validator_id : option string;
  device_fingerprint : option string;
  is_within_range : bool
}.
End Validation.

Module Profile.
Record t := mk { id : string; role : ProfileRole; updated_at : Z }.
End Profile.

(** ** The database *)

Record DB := mkDB {
  sightings : gmap string Sighting.t;     (* primary key [id] *)
  validations : list Validation.t;
  profiles : gmap string Profile.t;       (* primary key [id] *)
  auth_users : gset string                (* ids of [auth.users] *)
}.

(** Who runs a statement: the browser client connects with the anon key and
    is [anon] or, once signed in, [authenticated uid] ([auth.uid() = uid]);
    [service_role] (dashboard, server routes) bypasses row-level security. *)
Inductive Session := anon | authenticated (uid : string) | service_role.

(** The error object PostgREST hands back: SQLSTATE and message. *)
Record PostgrestError := mkError { code : string; message : string }.

Inductive Result := Ok (db : DB) | Err (e : PostgrestError).

(** The columns a client may send in [from('validations').insert({...})];
    an omitted column takes its default. *)
Record ValidationInsert := mkInsert {
  ins_sighting_id : string;
  ins_validator_hash : option string;
  ins_validator_lat : option Q;
  ins_validator_lng : option Q;
  ins_validator_id : option string;
  ins_device_fingerprint : option string;
  ins_is_within_range : option bool
}.

(** ** The status-promotion trigger *)

Module Store.

(** [select count( * )::int from validations where sighting_id = v_sighting_id]
    (the table is assumed to hold fewer than 2^31 rows, so the cast succeeds). *)
Definition count_validations (v_sighting_id : string) (db : DB) : Z :=
  Z.of_nat (length (filter (λ v, Validation.sighting_id v = v_sighting_id) (validations db))).

(** The [case] expression of the [update] in
    [recompute_sighting_validations] (second migration). *)
Definition promoted_status (v_count v_media_len : Z) : SightingStatus :=
  if bool_decide (3 ≤ v_count) then verified
  else if bool_decide (0 < v_media_len) && bool_decide (2 ≤ v_count) then verified
  else unverified.

(** The row assignment of that [update]: [set validations_count = v_count,
    status = case ... end], on a row that passed
    [where id = v_sighting_id and status != 'confirmed']. *)
Definition set_count_status (v_count : Z) (v_media_len : Z) (s : Sighting.t) : Sighting.t :=
  Sighting.mk (Sighting.id s) (Sighting.created_at s) (Sighting.event_time s)
    (Sighting.lat s) (Sighting.lng s) (Sighting.activity_type s) (Sighting.notes s)
    (Sighting.media s) (promoted_status v_count v_media_len) v_count.

Definition with_sightings (f : gmap string Sighting.t → gmap string Sighting.t) (db : DB) : DB :=
  mkDB (f (sightings db)) (validations db) (profiles db) (auth_users db).

(** [recompute_sighting_validations()], for the row with
    [coalesce(new.sighting_id, old.sighting_id) = v_sighting_id].
    [v_current_status] and [v_media_len] are NULL ([None]) when no sighting
    has that id; the [update] then matches no row. *)
Definition recompute_sighting_validations (v_sighting_id : string) (db : DB) : DB :=
  let v_current_status := Sighting.status <$> sightings db !! v_sighting_id in
  if bool_decide (v_current_status = Some confirmed) then db
  else
    let v_count := count_validations v_sighting_id db in
    let v_media_len := (λ s, Z.of_nat (length (Sighting.media s))) <$> sightings db !! v_sighting_id in
    with_sightings
      (alter (λ s, if bool_decide (Sighting.status s ≠ confirmed)
                   then set_count_status v_count (default 0 v_media_len) s
                   else s) v_sighting_id)
      db.

(** ** Statements on [validations] *)

Definition char_length (s : string) : Z := Z.of_nat (String.length s).

Definition between (lo hi x : Z) : bool := bool_decide (lo ≤ x) && bool_decide (x ≤ hi).

(** Policy [validations_insert_anon] (second migration), [with check]:
    [device_fingerprint is not null and char_length(device_fingerprint)
    between 16 and 256]. *)
Definition validations_insert_anon (v : Validation.t) : bool :=
  match Validation.device_fingerprint v with
  | Some fp => between 16 256 (char_length fp)
  | None => false
  end.

(** [validations_validator_hash_len_chk] (a NULL hash passes a check
    constraint) and [validations_device_fingerprint_len_chk]. *)
Definition validations_validator_hash_len_chk (v : Validation.t) : bool :=
  match Validation.validator_hash v with
  | Some h => between 16 256 (char_length h)
  | None => true
  end.

Definition validations_device_fingerprint_len_chk (v : Validation.t) : bool :=
  match Validation.device_fingerprint v with
  | Some fp => bool_decide (16 ≤ char_length fp) && bool_decide (char_length fp ≤ 256)
  | None => true
  end.

(** Primary key on [id]. *)
Definition validations_pkey (v : Validation.t) (rows : list Validation.t) : bool :=
  forallb (λ w, negb (bool_decide (Validation.id w = Validation.id v))) rows.

(** [validations_unique_device_per_sighting]: unique on
    [(sighting_id, device_fingerprint) where device_fingerprint is not null]. *)
Definition validations_unique_device_per_sighting
    (v : Validation.t) (rows : list Validation.t) : bool :=
  match Validation.device_fingerprint v with
  | None => true
  | Some fp =>
      forallb (λ w, negb (bool_decide (Validation.sighting_id w = Validation.sighting_id v)
                          && bool_decide (Validation.device_fingerprint w = Some fp))) rows
  end.

(** [validations_unique_hash_per_sighting]: unique on
    [(sighting_id, validator_hash) where validator_hash is not null]. *)
Definition validations_unique_hash_per_sighting
    (v : Validation.t) (rows : list Validation.t) : bool :=
  match Validation.validator_hash v with
  | None => true
  | Some h =>
      forallb (λ w, negb (bool_decide (Validation.sighting_id w = Validation.sighting_id v)
                          && bool_decide (Validation.validator_hash w = Some h))) rows
  end.

(** Foreign keys: [sighting_id references sightings(id)],
    [validator_id references auth.users(id)]. *)
Definition validations_fkeys (v : Validation.t) (db : DB) : bool :=
  bool_decide (is_Some (sightings db !! Validation.sighting_id v))
  && match Validation.validator_id v with
     | Some u => bool_decide (u ∈ auth_users db)
     | None => true
     end.

Definition insufficient_privilege : PostgrestError :=
  mkError "42501" "new row violates row-level security policy for table validations".
Definition check_violation : PostgrestError :=
  mkError "23514" "new row for relation validations violates check constraint".
Definition unique_violation : PostgrestError :=
  mkError "23505" "duplicate key value violates unique constraint".
Definition foreign_key_violation : PostgrestError :=
  mkError "23503" "insert or update on table validations violates foreign key constraint".

(** The row an insert builds: [id default gen_random_uuid()],
    [created_at default now()], [is_within_range default true]. *)
Definition new_validation (gen_random_uuid : string) (now : Z) (r : ValidationInsert) : Validation.t :=
  Validation.mk gen_random_uuid now (ins_sighting_id r) (ins_validator_hash r)
    (ins_validator_lat r) (ins_validator_lng r) (ins_validator_id r)
    (ins_device_fingerprint r) (default true (ins_is_within_range r)).

Definition bypasses_rls (who : Session) : bool :=
  match who with service_role => true | _ => false end.

(** [insert into validations ...] of one row: the row-level-security check,
    the check constraints, the unique indexes, the foreign keys, and then the
    trigger [validations_after_insert_recompute].  Any failure rolls the
    statement back. *)
Definition insert_validation (who : Session) (gen_random_uuid : string) (now : Z)
    (r : ValidationInsert) (db : DB) : Result :=
  let new := new_validation gen_random_uuid now r in
  if negb (bypasses_rls who || validations_insert_anon new) then Err insufficient_privilege
  else if negb (validations_validator_hash_len_chk new
                && validations_device_fingerprint_len_chk new) then Err check_violation
  else if negb (validations_pkey new (validations db)
                && validations_unique_device_per_sighting new (validations db)
                && validations_unique_hash_per_sighting new (validations db))
       then Err unique_violation
  else if negb (validations_fkeys new db) then Err foreign_key_violation
  else
    Ok (recompute_sighting_validations (Validation.sighting_id new)
          (mkDB (sightings db) (validations db ++ [new]) (profiles db) (auth_users db))).

(** [delete from validations where id = vid].  No delete policy exists, so
    for [anon] and [authenticated] no row is visible to the statement; for
    every deleted row the trigger [validations_after_delete_recompute] runs
    once all rows are gone. *)
Definition delete_validation (who : Session) (vid : string) (db : DB) : Result :=
  if bypasses_rls who then
    let old := filter (λ v, Validation.id v = vid) (validations db) in
    let kept := filter (λ v, Validation.id v ≠ vid) (validations db) in
    Ok (foldl (λ d v, recompute_sighting_validations (Validation.sighting_id v) d)
          (mkDB (sightings db) kept (profiles db) (auth_users db)) old)
  else Ok db.

(** ** Reading [profiles] under row-level security *)

Definition infinite_recursion : PostgrestError :=
  mkError "42P17" "infinite recursion detected in policy for relation profiles".

(** The rows of [profiles] a statement of [who] can read.  The only select
    policy is [profiles_select_own_or_admin], [for select to authenticated]:
    [auth.uid() = id or exists (select 1 from profiles p
                                where p.id = auth.uid() and p.role = 'admin')].
    Its expression reads [profiles], to which the same policy applies, and
    so on without end: PostgreSQL refuses with 42P17 every statement in which
    an [authenticated] session reads the table, whatever the rows are.  No
    select policy names [anon], which sees no row; [service_role] bypasses
    row-level security, as do the [security definer] functions. *)
Definition select_profiles (who : Session) (db : DB)
    : PostgrestError + gmap string Profile.t :=
  match who with
  | service_role => inr (profiles db)
  | anon => inr ∅
  | authenticated _ => inl infinite_recursion
  end.

(** ** Statements on [sightings] *)

(** Policy [sightings_update_trusted], [for update to authenticated], both
    [using] and [with check]:
    [exists (select 1 from profiles p where p.id = auth.uid()
             and p.role in ('trusted','admin'))].
    The sub-select reads [profiles] as the session does, so evaluating the
    policy either raises or decides; no update policy names [anon]. *)
Definition sightings_update_trusted (who : Session) (db : DB) : PostgrestError + bool :=
  match who with
  | authenticated uid =>
      match select_profiles who db with
      | inl e => inl e
      | inr visible =>
          inr match visible !! uid with
              | Some p => bool_decide (Profile.role p = trusted)
                          || bool_decide (Profile.role p = admin)
              | None => false
              end
      end
  | _ => inr false
  end.

Definition set_status (st : SightingStatus) (s : Sighting.t) : Sighting.t :=
  Sighting.mk (Sighting.id s) (Sighting.created_at s) (Sighting.event_time s)
    (Sighting.lat s) (Sighting.lng s) (Sighting.activity_type s) (Sighting.notes s)
    (Sighting.media s) st (Sighting.validations_count s).

(** [update sightings set status = st where id = sid].  Rows that fail the
    [using] expression are not visible to the update: it then touches no row
    and raises nothing; a policy that cannot be evaluated fails the
    statement.  [sightings] carries no trigger. *)
Definition update_sighting_status (who : Session) (sid : string) (st : SightingStatus)
    (db : DB) : Result :=
  if bypasses_rls who then Ok (with_sightings (alter (set_status st) sid) db)
  else
    match sightings_update_trusted who db with
    | inl e => Err e
    | inr true => Ok (with_sightings (alter (set_status st) sid) db)
    | inr false => Ok db
    end.

End Store.

(** ** The legacy device identity: [generateValidatorHash] *)

Module Privacy.

(** ToInt32 of an integral number. *)
Definition ToInt32 (x : Z) : Z := (x + 2 ^ 31) `mod` 2 ^ 32 - 2 ^ 31.

(** [String.prototype.charCodeAt]; tokens and ids are ASCII text. *)
Definition charCodeAt (c : ascii) : Z := Z.of_N (N_of_ascii c).

(** One round of the loop body:
    [hash = (hash << 5) - hash + char; hash = hash & hash]. *)
Definition hash_step (hash : Z) (c : ascii) : Z :=
  let char := charCodeAt c in
  let hash := ToInt32 (Z.shiftl (ToInt32 hash) 5) - hash + char in
  Z.land (ToInt32 hash) (ToInt32 hash).

(** [for (let i = 0; i < combined.length; i++) ...] starting from [hash]. *)
Fixpoint hash_loop (combined : string) (hash : Z) : Z :=
  match combined with
  | EmptyString => hash
  | String c rest => hash_loop rest (hash_step hash c)
  end.

(** Digit [d] of [Number.prototype.toString(radix)]: 0-9 then a-z. *)
Definition digit_char (d : Z) : ascii :=
  if d <? 10 then ascii_of_N (Z.to_N (48 + d)) else ascii_of_N (Z.to_N (87 + d)).

(** The digits of [n >= 0] in front of [acc], most significant first. *)
Fixpoint digits (fuel : nat) (radix n : Z) (acc : string) : string :=
  match fuel with
  | O => acc
  | S fuel' =>
      let acc' := String (digit_char (n `mod` radix)) acc in
      if n `div` radix =? 0 then acc' else digits fuel' radix (n `div` radix) acc'
  end.

(** [n.toString(radix)] for an integral [n]; [Z.log2 n + 1] rounds suffice
    for any radix of at least 2. *)
Definition Number_toString (radix n : Z) : string :=
  if n <? 0 then "-" +:+ digits (S (Z.to_nat (Z.log2 (- n)))) radix (- n) ""
  else digits (S (Z.to_nat (Z.log2 n))) radix n "".

(** What the function sees of the browser: whether [window] is defined and
    the entry of [localStorage] under [STORAGE_KEY]. *)
Record Browser := mkBrowser { has_window : bool; localStorage : gmap string string }.

Definition STORAGE_KEY : string := "ice_out_validator_token".

(** [!deviceToken]: [null] and the empty string are falsy. *)
Definition falsy (deviceToken : option string) : bool :=
  match deviceToken with
  | None => true
  | Some t => bool_decide (t = "")
  end.

(** [generateValidatorHash(sightingId)].  [randomUUID] is the value of
    [crypto.randomUUID()], [token_time] and [now] the values of the two
    [Date.now()] calls; the result is paired with the browser afterwards. *)
Definition generateValidatorHash (randomUUID : string) (token_time now : Z)
    (sightingId : string) (b : Browser) : string * Browser :=
  let stored := if has_window b then localStorage b !! STORAGE_KEY else None in
  let '(deviceToken, b) :=
    if falsy stored then
      let fresh := randomUUID +:+ "-" +:+ Number_toString 10 token_time in
      (fresh, if has_window b
              then mkBrowser (has_window b) (<[STORAGE_KEY := fresh]> (localStorage b))
              else b)
    else (default "" stored, b) in
  let combined := deviceToken +:+ ":" +:+ sightingId in
  let hash := hash_loop combined 0 in
  (Number_toString 36 (Z.abs hash) +:+ Number_toString 36 now, b).

(** Reading a [toString(radix)] string back: the value of a digit and of a
    digit string, continuing from [acc]. *)
Definition digit_value (c : ascii) : Z :=
  let x := Z.of_N (N_of_ascii c) in
  if x <? 58 then x - 48 else x - 87.

Fixpoint parse_digits (radix : Z) (s : string) (acc : Z) : Z :=
  match s with
  | EmptyString => acc
  | String c rest => parse_digits radix rest (acc * radix + digit_value c)
  end.

End Privacy.

(** ** The sighting drawer: [handleValidate] and [handleConfirm] *)

(** Outcome of [navigator.geolocation.getCurrentPosition]: a position, or a
    [GeolocationPositionError] with code [PERMISSION_DENIED] or another code
    ([POSITION_UNAVAILABLE], [TIMEOUT]). *)
Inductive Geolocation :=
  | Position (latitude longitude : Q)
  | PermissionDenied
  | PositionUnavailable.

(** The [useState] cells of the component. *)
Record DrawerState := mkDrawer {
  validating : bool;
  validationError : option string;
  validationSuccess : bool;
  confirming : bool;
  confirmError : option string;
  confirmSuccess : bool
}.

Module Drawer.

Section Handlers.

(** [isWithinProximity(aLat, aLng, bLat, bLng, radiusMeters)] of
    [lib/geo/haversine] decides the gate in floating-point arithmetic; the
    handlers are parametric in it. *)
Variable isWithinProximity : Q → Q → Q → Q → Q → bool.

(** Whether the error object of the store client is an [Error] instance
    (it depends on the client library's version). *)
Variable error_instanceof_Error : bool.

Definition session_of (user : option string) : Session :=
  match user with
  | Some uid => authenticated uid
  | None => anon
  end.

Definition set_validation (v : bool) (e : option string) (ok : bool) (st : DrawerState) : DrawerState :=
  mkDrawer v e ok (confirming st) (confirmError st) (confirmSuccess st).

Definition set_confirm (c : bool) (e : option string) (ok : bool) (st : DrawerState) : DrawerState :=
  mkDrawer (validating st) (validationError st) (validationSuccess st) c e ok.

(** The [catch] branch for an error that is no [GeolocationPositionError]:
    [err instanceof Error ? err.message : 'Failed to validate sighting.']. *)
Definition thrown_message (e : PostgrestError) : string :=
  if error_instanceof_Error then message e else "Failed to validate sighting.".

(** The part of both revisions after the insert has returned. *)
Definition after_insert (r : Result) (st : DrawerState) (db : DB) : DrawerState * DB :=
  match r with
  | Err e =>
      if bool_decide (code e = "23505")
      then (set_validation false (Some "You have already validated this sighting.") false st, db)
      else (set_validation false (Some (thrown_message e)) false st, db)
  | Ok db' => (set_validation false None true st, db')
  end.

(** [handleValidate] (current revision).  [user] is [user?.id] of the
    session, [geo] the outcome of the geolocation request, [visitorId] the
    result of [getDeviceFingerprint()], [gen_random_uuid] and [now] the
    defaults the store draws for the new row. *)
Definition handleValidate (user : option string) (sighting : option Sighting.t)
    (geo : Geolocation) (visitorId : string) (gen_random_uuid : string) (now : Z)
    (st : DrawerState) (db : DB) : DrawerState * DB :=
  match sighting with
  | None => (st, db)
  | Some sighting =>
      if validating st || validationSuccess st then (st, db)
      else
        match geo with
        | PermissionDenied =>
            (set_validation false
               (Some "Location permission denied. Please enable location access to validate.")
               false st, db)
        | PositionUnavailable =>
            (set_validation false (Some "Unable to get your location. Please try again.")
               false st, db)
        | Position userLat userLng =>
            if negb (isWithinProximity userLat userLng
                       (Sighting.lat sighting) (Sighting.lng sighting) 500)
            then (set_validation false
                    (Some "You must be within 500 meters to validate this sighting.")
                    false st, db)
            else
              let deviceFingerprint := visitorId in
              after_insert
                (Store.insert_validation (session_of user) gen_random_uuid now
                   (mkInsert (Sighting.id sighting) None None None user
                      (Some deviceFingerprint) (Some true)) db)
                st db
        end
  end.

(** [Math.round(x * 100) / 100] on the rational [x] (the rounding error of
    the floating-point product is not modelled). *)
Definition round2 (x : Q) : Q := ((Qfloor (x * 100 + (1 # 2)) # 1) / 100)%Q.

(** [handleValidate] of the legacy revision of the drawer, which identifies
    the device with [generateValidatorHash] and knows no session. *)
Definition handleValidate_legacy (sighting : Sighting.t) (geo : Geolocation)
    (randomUUID : string) (token_time hash_time : Z) (gen_random_uuid : string) (now : Z)
    (st : DrawerState) (b : Privacy.Browser) (db : DB) : DrawerState * Privacy.Browser * DB :=
  if validating st || validationSuccess st then (st, b, db)
  else
    match geo with
    | PermissionDenied =>
        (set_validation false
           (Some "Location permission denied. Please enable location access to validate.")
           false st, b, db)
    | PositionUnavailable =>
        (set_validation false (Some "Unable to get your location. Please try again.")
           false st, b, db)
    | Position userLat userLng =>
        if negb (isWithinProximity userLat userLng
                   (Sighting.lat sighting) (Sighting.lng sighting) 500)
        then (set_validation false
                (Some "You must be within 500 meters to validate this sighting.")
                false st, b, db)
        else
          let '(validatorHash, b) :=
            Privacy.generateValidatorHash randomUUID token_time hash_time
              (Sighting.id sighting) b in
          let '(st, db) :=
            after_insert
              (Store.insert_validation anon gen_random_uuid now
                 (mkInsert (Sighting.id sighting) (Some validatorHash)
                    (Some (round2 userLat)) (Some (round2 userLng)) None None None) db)
              st db in
          (st, b, db)
    end.

(** [handleConfirm]: [update({ status: 'confirmed' }).eq('id', sighting.id)]. *)
Definition handleConfirm (user : option string) (sighting : option Sighting.t)
    (st : DrawerState) (db : DB) : DrawerState * DB :=
  match sighting with
  | None => (st, db)
  | Some sighting =>
      if confirming st || confirmSuccess st then (st, db)
      else
        match Store.update_sighting_status (session_of user) (Sighting.id sighting) confirmed db with
        | Err e => (set_confirm false (Some (message e)) false st, db)
        | Ok db' => (set_confirm false None true st, db')
        end
  end.

(** [canConfirm] and the condition under which the confirm button is
    rendered: [isVerified && !isConfirmed && canConfirm]. *)
Definition canConfirm (user : option string) (role : option ProfileRole) : bool :=
  bool_decide (is_Some user)
  && (bool_decide (role = Some trusted) || bool_decide (role = Some admin)).

Definition isVerified (s : Sighting.t) : bool :=
  bool_decide (Sighting.status s = verified) || bool_decide (Sighting.status s = active)
  || bool_decide (Sighting.status s = confirmed).

Definition confirm_button_rendered (user : option string) (role : option ProfileRole)
    (s : Sighting.t) : bool :=
  isVerified s && negb (bool_decide (Sighting.status s = confirmed)) && canConfirm user role.

End Handlers.

(** A drawer that has just been opened. *)
Definition initial : DrawerState := mkDrawer false None false false None false.

End Drawer.

(** ** Words of the specification *)

Module Spec.

(** "effectiveThreshold := 2 if mediaCount > 0 else 3" *)
Definition effectiveThreshold (mediaCount : Z) : Z :=
  if bool_decide (0 < mediaCount) then 2 else 3.

(** "status := verified if validations_count >= effectiveThreshold else
    unverified" *)
Definition derived_status (validations_count threshold : Z) : SightingStatus :=
  if bool_decide (threshold ≤ validations_count) then verified else unverified.

(** "the number of validation rows referencing that sighting", counted row
    by row. *)
Fixpoint referencing (sightingId : string) (rows : list Validation.t) : Z :=
  match rows with
  | [] => 0
  | v :: rows =>
      (if bool_decide (Validation.sighting_id v = sightingId) then 1 else 0)
      + referencing sightingId rows
  end.

(** The messages by which the drawer reports the rejections
    [OUT_OF_RANGE] and [DUPLICATE_DEVICE]. *)
Definition OUT_OF_RANGE : string := "You must be within 500 meters to validate this sighting.".
Definition DUPLICATE_DEVICE : string := "You have already validated this sighting.".

End Spec.

(** ** Histories of validation statements *)

Inductive Statement :=
  | InsertValidation (who : Session) (gen_random_uuid : string) (now : Z) (r : ValidationInsert)
  | DeleteValidation (who : Session) (vid : string).

(** A failed statement is rolled back and leaves the database as it was. *)
Definition commit (r : Result) (db : DB) : DB :=
  match r with
  | Ok db' => db'
  | Err _ => db
  end.

Definition exec (db : DB) (c : Statement) : DB :=
  match c with
  | InsertValidation who uuid now r => commit (Store.insert_validation who uuid now r db) db
  | DeleteValidation who vid => commit (Store.delete_validation who vid db) db
  end.

Definition run (cs : list Statement) (db : DB) : DB := foldl exec db cs.

(** The rows one device holds for one sighting. *)
Definition device_rows (sid fp : string) (db : DB) : list Validation.t :=
  filter (λ v, Validation.sighting_id v = sid ∧ Validation.device_fingerprint v = Some fp)
    (validations db).

(** "at most one validation record per (sighting, device identifier) pair" *)
Definition one_row_per_device (db : DB) : Prop :=
  ∀ sid fp, (length (device_rows sid fp db) ≤ 1)%nat.

(** What the store demands of a validation from device [fp] for sighting
    [sid] apart from the device slot being free: a fingerprint of 16 to 256
    characters, an existing sighting, an existing user (if signed in) and a
    row id that is not taken. *)
Definition acceptable (user : option string) (sid fp uuid : string) (db : DB) : Prop :=
  (16 ≤ Store.char_length fp ≤ 256)
  ∧ is_Some (sightings db !! sid)
  ∧ match user with Some u => u ∈ auth_users db | None => True end
  ∧ Forall (λ v, Validation.id v ≠ uuid) (validations db).

#[global] Instance acceptable_dec user sid fp uuid db : Decision (acceptable user sid fp uuid db).
Proof. unfold acceptable. destruct user; apply _. Defined.

(** The row the current drawer stores for an admitted validation. *)
Definition admitted_row (user : option string) (sid fp uuid : string) (now : Z) : Validation.t :=
  Validation.mk uuid now sid None None None user (Some fp) true.

(** The role the [profiles] table records for the signed-in user, if any. *)
Definition role_of (user : option string) (db : DB) : option ProfileRole :=
  user ≫= λ uid, Profile.role <$> profiles db !! uid.

(** ** Sample data *)

Module Sample.

Definition sid : string := "7c9e6679-7425-40de-944b-e07fc1f90ae7".

(** A report without media and one with a photo, as freshly submitted. *)
Definition plain : Sighting.t :=
  Sighting.mk sid 1769700000000 1769699000000 (4071280 # 100000) (-7400600 # 100000)
    "Vehicle stop" None [] unverified 0.

Definition with_photo : Sighting.t :=
  Sighting.mk sid 1769700000000 1769699000000 (4071280 # 100000) (-7400600 # 100000)
    "Checkpoint" None [mkMediaItem "sightings/1769700000000-k3x9.jpg" "image/jpeg"]
    unverified 0.

Definition db_of (s : Sighting.t) (ps : gmap string Profile.t) : DB :=
  mkDB {[ Sighting.id s := s ]} [] ps (dom ps).

Definition alice : string := "0a000000-0000-4000-8000-00000000000a".
Definition bob : string := "0b000000-0000-4000-8000-00000000000b".

(** [alice] is a trusted verifier, [bob] signed up and stayed anonymous. *)
Definition people : gmap string Profile.t :=
  {[ alice := Profile.mk alice trusted 0; bob := Profile.mk bob anonymous 0 ]}.

(** FingerprintJS visitor ids (32 hexadecimal characters). *)
Definition fp1 : string := "a3f1c2d4e5b60718293a4b5c6d7e8f90".
Definition fp2 : string := "b4e2d3c5f6a718293a4b5c6d7e8f9012".
Definition fp3 : string := "c5d3e4f6a7b8192a3b4c5d6e7f801234".

Definition vote (fp : string) : ValidationInsert :=
  mkInsert sid None None None None (Some fp) (Some true).

(** Three devices validate the plain report. *)
Definition three_votes : list Statement :=
  [ InsertValidation anon "v1" 1769700100000 (vote fp1);
    InsertValidation anon "v2" 1769700200000 (vote fp2);
    InsertValidation anon "v3" 1769700300000 (vote fp3) ].

(** A browser that validated before: its token is in [localStorage]. *)
Definition browser : Privacy.Browser :=
  Privacy.mkBrowser true
    {[ Privacy.STORAGE_KEY := "3f2b8c1e-5d4a-4e6f-9a7b-0c1d2e3f4a5b-1769700000000" ]}.

(** A stand-in for [isWithinProximity] to run the handlers on sample
    positions: the sum of the coordinate differences, at 100 km to the
    degree, against the radius. *)
Definition near (aLat aLng bLat bLng radiusMeters : Q) : bool :=
  Qle_bool (Qabs (aLat - bLat) + Qabs (aLng - bLng)) (radiusMeters / 100000).

(** An observer across the street and one a few kilometres away. *)
Definition here : Geolocation := Position (4071300 # 100000) (-7400610 # 100000).
Definition there : Geolocation := Position (4080000 # 100000) (-7400000 # 100000).

Definition town : DB := db_of plain people.

(** 2026-01-29T21:00:00Z in milliseconds. *)
Definition clock : Z := 1769720400000.

End Sample.

(** ** The derived columns and what the drawer shows of them *)

(** The sighting stored under [sid] carries the count and status the trigger
    derives from the validation rows as they are now. *)
Definition in_step_at (db : DB) (sid : string) : Prop :=
  ∀ s, sightings db !! sid = Some s → Sighting.status s ≠ confirmed →
    Sighting.validations_count s = Store.count_validations sid db
    ∧ Sighting.status s
      = Store.promoted_status (Store.count_validations sid db)
          (Z.of_nat (length (Sighting.media s))).

Definition in_step (db : DB) : Prop := ∀ sid, in_step_at db sid.

(** A statement an ordinary client can get through: any insert, and deletes
    only from sessions that row-level security applies to. *)
Definition unprivileged_delete (c : Statement) : Prop :=
  match c with
  | InsertValidation _ _ _ _ => True
  | DeleteValidation who _ => Store.bypasses_rls who = false
  end.

Module View.

(** [validationThreshold = sighting.media?.length ? 2 : 3] *)
Definition validationThreshold (s : Sighting.t) : Z :=
  if bool_decide (length (Sighting.media s) ≠ 0%nat) then 2 else 3.

(** [validationsNeeded = Math.max(0, validationThreshold - sighting.validations_count)] *)
Definition validationsNeeded (s : Sighting.t) : Z :=
  Z.max 0 (validationThreshold s - Sighting.validations_count s).

(** The validate button and its messages sit under [!isVerified]. *)
Definition validate_section_rendered (s : Sighting.t) : bool := negb (Drawer.isVerified s).

(** [fetchRole] of the auth provider, run in the session of the signed-in
    user: [from('profiles').select('role').eq('id', userId).single()], whose
    [data] is [null] when the select fails or finds no row, then
    [setRole((data?.role) ?? 'anonymous')]; and the [role] state, which is
    [null] while nobody is signed in. *)
Definition fetchRole (db : DB) (userId : string) : ProfileRole :=
  let data := match Store.select_profiles (authenticated userId) db with
              | inl _ => None
              | inr visible => visible !! userId
              end in
  default anonymous (Profile.role <$> data).

Definition role_state (db : DB) (user : option string) : option ProfileRole :=
  fetchRole db <$> user.

End View.

(** ** The live map: realtime changes and markers *)

Module LiveMap.

(** A [postgres_changes] payload on [sightings]: [eventType] with
    [payload.new] or [payload.old.id]. *)
Inductive Payload :=
  | INSERT (new : Sighting.t)
  | UPDATE (new : Sighting.t)
  | DELETE (old_id : string).

(** The state update of the subscription callback. *)
Definition on_change (payload : Payload) (prev : list Sighting.t) : list Sighting.t :=
  match payload with
  | INSERT new => new :: prev
  | UPDATE new =>
      (λ s, if bool_decide (Sighting.id s = Sighting.id new) then new else s) <$> prev
  | DELETE old_id => filter (λ s, Sighting.id s ≠ old_id) prev
  end.

Inductive Icon := VerifiedIcon | HistoricalIcon | UnverifiedIcon.

(** The icon chosen for a marker; [now] is [new Date()] in milliseconds. *)
Definition marker_icon (now : Z) (sighting : Sighting.t) : Icon :=
  let twentyFourHoursAgo := now - 24 * 60 * 60 * 1000 in
  let isHistorical := bool_decide (Sighting.event_time sighting < twentyFourHoursAgo) in
  if bool_decide (Sighting.status sighting = verified) then VerifiedIcon
  else if isHistorical then HistoricalIcon
  else UnverifiedIcon.

(** What the change a payload reports did to the table. *)
Definition replay (payload : Payload) (table : gmap string Sighting.t) : gmap string Sighting.t :=
  match payload with
  | INSERT new => <[Sighting.id new := new]> table
  | UPDATE new => <[Sighting.id new := new]> table
  | DELETE old_id => delete old_id table
  end.

(** The list on screen shows the table: the rows of the table, each stored
    under its own id, are the entries of the list, each there once. *)
Definition mirrors (shown : list Sighting.t) (db : DB) : Prop :=
  NoDup (Sighting.id <$> shown)
  ∧ ∀ k s, sightings db !! k = Some s ↔ s ∈ shown ∧ Sighting.id s = k.

End LiveMap.

(** ** Text functions of SQL and JavaScript (on ASCII text) *)

Module Text.

Definition lower_char (c : ascii) : ascii :=
  let n := N_of_ascii c in
  if (65 <=? n)%N && (n <=? 90)%N then ascii_of_N (n + 32) else c.

(** SQL [lower] and JavaScript [toLowerCase]. *)
Fixpoint lower (s : string) : string :=
  match s with
  | EmptyString => EmptyString
  | String c rest => String (lower_char c) (lower rest)
  end.

Fixpoint ltrim (space : ascii → bool) (s : string) : string :=
  match s with
  | EmptyString => EmptyString
  | String c rest => if space c then ltrim space rest else s
  end.

Fixpoint rtrim (space : ascii → bool) (s : string) : string :=
  match s with
  | EmptyString => EmptyString
  | String c rest =>
      match rtrim space rest with
      | EmptyString => if space c then EmptyString else String c EmptyString
      | rest' => String c rest'
      end
  end.

(** SQL [trim(text)] removes spaces from both ends. *)
Definition sql_space (c : ascii) : bool := bool_decide (c = " "%char).
Definition sql_trim (s : string) : string := ltrim sql_space (rtrim sql_space s).

(** [String.prototype.trim] removes white space and line terminators:
    tab, line feed, vertical tab, form feed, carriage return, space and
    no-break space among the code units below 256. *)
Definition js_space (c : ascii) : bool :=
  let n := N_of_ascii c in
  ((9 <=? n)%N && (n <=? 13)%N) || (n =? 32)%N || (n =? 160)%N.
Definition js_trim (s : string) : string := ltrim js_space (rtrim js_space s).

(** [s.includes(c)] for a one-character needle. *)
Fixpoint includes (c : ascii) (s : string) : bool :=
  match s with
  | EmptyString => false
  | String d rest => bool_decide (d = c) || includes c rest
  end.

End Text.

(** ** Profiles, invitations and sign-up *)

Module Invite.
(** [public.pending_invites], keyed by its primary key [email]. *)
Record t := mk { invited_by : string; created_at : Z }.
End Invite.

(** The database together with what the invitation flow needs of
    [auth.users] (the email of each user, NULL for none) and the
    [pending_invites] table. *)
Record AuthDB := mkAuthDB {
  base : DB;
  user_email : gmap string string;
  pending_invites : gmap string Invite.t
}.

Inductive AuthResult := AuthOk (adb : AuthDB) | AuthErr (e : PostgrestError).

Module Roles.

(** Policy [profiles_update_admin], [for update to authenticated], [using]
    and [with check]:
    [exists (select 1 from profiles p where p.id = auth.uid() and p.role = 'admin')].
    The sub-select reads [profiles] as the session does. *)
Definition profiles_update_admin (who : Session) (db : DB) : PostgrestError + bool :=
  match who with
  | authenticated uid =>
      match Store.select_profiles who db with
      | inl e => inl e
      | inr visible =>
          inr match visible !! uid with
              | Some p => bool_decide (Profile.role p = admin)
              | None => false
              end
      end
  | _ => inr false
  end.

Definition with_profiles (f : gmap string Profile.t → gmap string Profile.t) (db : DB) : DB :=
  mkDB (sightings db) (validations db) (f (profiles db)) (auth_users db).

(** [update profiles set role = newRole, updated_at = t where id = target];
    rows failing the [using] expression are not visible to the update, and
    a policy that cannot be evaluated fails the statement. *)
Definition update_profile_role (who : Session) (target : string) (newRole : ProfileRole)
    (updated_at : Z) (db : DB) : Result :=
  let updated :=
    with_profiles (alter (λ p, Profile.mk (Profile.id p) newRole updated_at) target) db in
  if Store.bypasses_rls who then Ok updated
  else
    match profiles_update_admin who db with
    | inl e => Err e
    | inr true => Ok updated
    | inr false => Ok db
    end.

(** A row of the admin page's list: id, email, role. *)
Record ProfileRow := mkRow { row_id : string; row_email : option string; row_role : ProfileRole }.

Record AdminState := mkAdmin {
  shown : list ProfileRow;
  error : option string;
  updatingId : option string
}.

(** [handleRoleChange(id, newRole)] of the admin page; [user] is the
    session and [now] the value of [new Date()]. *)
Definition handleRoleChange (user : option string) (id : string) (newRole : ProfileRole)
    (now : Z) (st : AdminState) (db : DB) : AdminState * DB :=
  match update_profile_role (Drawer.session_of user) id newRole now db with
  | Err updateError => (mkAdmin (shown st) (Some (message updateError)) None, db)
  | Ok db' =>
      (mkAdmin ((λ p, if bool_decide (row_id p = id)
                      then mkRow (row_id p) (row_email p) newRole else p) <$> shown st)
         None None, db')
  end.

(** Function [handle_new_user()] as the invitation migration leaves it,
    fired after the insert of [new] into [auth.users]. *)
Definition matches (new_email : option string) (email : string) : bool :=
  match new_email with
  | Some e => bool_decide (Text.lower (Text.sql_trim email) = Text.lower (Text.sql_trim e))
  | None => false
  end.

Definition handle_new_user (new_id : string) (new_email : option string) (now : Z)
    (adb : AuthDB) : AuthResult :=
  match profiles (base adb) !! new_id with
  | Some _ =>
      AuthErr (mkError "23505" "duplicate key value violates unique constraint profiles_pkey")
  | None =>
      let db1 := with_profiles (insert new_id (Profile.mk new_id anonymous now)) (base adb) in
      let v_invited :=
        existsb (λ kv, matches new_email kv.1) (map_to_list (pending_invites adb)) in
      if v_invited then
        AuthOk (mkAuthDB
                  (with_profiles (alter (λ p, Profile.mk (Profile.id p) trusted now) new_id) db1)
                  (user_email adb)
                  (filter (λ kv, matches new_email kv.1 = false) (pending_invites adb)))
      else AuthOk (mkAuthDB db1 (user_email adb) (pending_invites adb))
  end.

(** [insert into auth.users] of a user with the given id and email, with its
    trigger [on_auth_user_created]; a failing trigger undoes the insert. *)
Definition create_user (new_id : string) (new_email : option string) (now : Z)
    (adb : AuthDB) : AuthResult :=
  if bool_decide (new_id ∈ auth_users (base adb))
  then AuthErr (mkError "23505" "duplicate key value violates unique constraint users_pkey")
  else
    let db0 := mkDB (sightings (base adb)) (validations (base adb)) (profiles (base adb))
                 ({[ new_id ]} ∪ auth_users (base adb)) in
    let emails := match new_email with
                  | Some e => <[new_id := e]> (user_email adb)
                  | None => user_email adb
                  end in
    handle_new_user new_id new_email now (mkAuthDB db0 emails (pending_invites adb)).

End Roles.

(** ** The invitation route [POST /api/invite-validator] *)

Module InviteRoute.

(** What the route finds under one property of the JSON body. *)
Inductive Field :=
  | Undefined
  | Str (s : string)
  | NotString (truthy : bool).

(** [await request.json()] and the destructuring of its value.  The call
    rejects on text that is not JSON, and destructuring [null] throws; both
    are [Error]s whose message the runtime words.  Every other value is read
    property by property ([null], numbers, booleans, arrays and objects are
    [NotString]; a body that is a number, a string, a boolean or an array
    has none of the three properties). *)
Inductive Body :=
  | Malformed (text : string)
  | Null (text : string)
  | Props (email access_token refresh_token : Field).

(** [NextResponse.json({ error } | { ok, message }, { status })]. *)
Record Response := mkResponse { status : Z; error : option string }.

(** [!v] for a property of the body. *)
Definition falsy (v : Field) : bool :=
  match v with
  | Undefined => true
  | Str t => bool_decide (t = "")
  | NotString truthy => negb truthy
  end.

(** [process.env]: a variable is falsy when unset or empty. *)
Record Env := mkEnv {
  NEXT_PUBLIC_SUPABASE_URL : option string;
  NEXT_PUBLIC_SUPABASE_ANON_KEY : option string;
  SUPABASE_SERVICE_ROLE_KEY : option string
}.

Definition blank (v : option string) : bool :=
  match v with
  | None => true
  | Some t => bool_decide (t = "")
  end.

(** What [anon.auth.setSession(tokens)] does: it resolves with the user of
    the session, resolves with an error or without a user, or throws
    ([Some] message for an [Error], [None] for any other value). *)
Inductive Outcome :=
  | SessionOf (uid : string)
  | Refused
  | Thrown (err : option string).

(** The outer [catch]:
    [err instanceof Error ? err.message : 'Invite failed'], status 500. *)
Definition failed (err : option string) : Response :=
  mkResponse 500 (Some (default "Invite failed" err)).

(** [service.from('pending_invites').upsert({ email, invited_by },
    { onConflict: 'email' })]: a new row takes [created_at default now()],
    an existing one keeps it; [invited_by] references [auth.users]. *)
Definition upsert_pending_invite (email invited_by : string) (now : Z)
    (adb : AuthDB) : AuthResult :=
  if negb (bool_decide (invited_by ∈ auth_users (base adb)))
  then AuthErr (mkError "23503"
                  "insert or update on table pending_invites violates foreign key constraint")
  else
    let created :=
      match pending_invites adb !! email with
      | Some old => Invite.created_at old
      | None => now
      end in
    AuthOk (mkAuthDB (base adb) (user_email adb)
              (<[email := Invite.mk invited_by created]> (pending_invites adb))).

Section Route.

(** [createClient(url, key)] of the client library: the message of the
    [Error] it throws on a URL it does not accept, if it throws. *)
Variable createClient : string → string → option string.

(** The auth service is not part of the repository. *)
Variable setSession : Field → Field → Outcome.

(** [service.auth.admin.inviteUserByEmail(email, { redirectTo })], run by
    the auth service: its error, if any, and the database it leaves. *)
Variable inviteUserByEmail : string → option string → AuthDB → option string * AuthDB.

(** [new URL(referer).origin], [None] when the constructor throws. *)
Variable origin : string → option string.

(** [getAnonClient()] and [getServiceClient()]: the message of the
    [Error] thrown, if any. *)
Definition getAnonClient (env : Env) : option string :=
  if blank (NEXT_PUBLIC_SUPABASE_URL env) || blank (NEXT_PUBLIC_SUPABASE_ANON_KEY env)
  then Some "Missing Supabase anon env"
  else createClient (default "" (NEXT_PUBLIC_SUPABASE_URL env))
         (default "" (NEXT_PUBLIC_SUPABASE_ANON_KEY env)).

Definition getServiceClient (env : Env) : option string :=
  if blank (NEXT_PUBLIC_SUPABASE_URL env) || blank (SUPABASE_SERVICE_ROLE_KEY env)
  then Some "Missing SUPABASE_SERVICE_ROLE_KEY"
  else createClient (default "" (NEXT_PUBLIC_SUPABASE_URL env))
         (default "" (SUPABASE_SERVICE_ROLE_KEY env)).

(** The profile is read through the client that carries the caller's
    session, that is as [authenticated]. *)
Definition POST (env : Env) (body : Body) (referer : option string) (now : Z)
    (adb : AuthDB) : Response * AuthDB :=
  match body with
  | Malformed text | Null text => (failed (Some text), adb)
  | Props email access_token refresh_token =>
      let trimmed := match email with
                     | Str e => Text.js_trim e
                     | _ => ""
                     end in
      if bool_decide (trimmed = "") || negb (Text.includes "@" trimmed)
      then (mkResponse 400 (Some "Valid email required"), adb)
      else if falsy access_token || falsy refresh_token
      then (mkResponse 401 (Some "Session required (access_token, refresh_token)"), adb)
      else
        match getAnonClient env, setSession access_token refresh_token with
        | Some thrown, _ => (failed (Some thrown), adb)
        | None, Thrown err => (failed err, adb)
        | None, Refused => (mkResponse 401 (Some "Invalid session"), adb)
        | None, SessionOf uid =>
            let profile :=
              match Store.select_profiles (authenticated uid) (base adb) with
              | inl _ => None
              | inr visible => visible !! uid
              end in
            if negb (bool_decide (Profile.role <$> profile = Some admin))
            then (mkResponse 403 (Some "Admin only"), adb)
            else
              match getServiceClient env,
                    upsert_pending_invite (Text.lower trimmed) uid now adb with
              | Some thrown, _ => (failed (Some thrown), adb)
              | None, AuthErr insertError =>
                  (mkResponse 400 (Some (message insertError)), adb)
              | None, AuthOk adb1 =>
                  let redirectTo :=
                    match referer with
                    | Some url => if bool_decide (url = "") then None else origin url
                    | None => None
                    end in
                  match inviteUserByEmail trimmed redirectTo adb1 with
                  | (Some inviteError, adb2) => (mkResponse 400 (Some inviteError), adb2)
                  | (None, adb2) => (mkResponse 200 None, adb2)
                  end
              end
        end
  end.

End Route.

End InviteRoute.

(** ** Submitting sightings: the insert, the CSV import, the report page *)

(** The columns a client may send in [from('sightings').insert({...})]. *)
Record SightingInsert := mkSightingInsert {
  si_event_time : option Z;
  si_lat : Q;
  si_lng : Q;
  si_activity_type : string;
  si_notes : option string;
  si_media : option (list MediaItem);
  si_status : option SightingStatus;
  si_validations_count : option Z
}.

Module Reports.

Definition in_range (lo hi x : Q) : bool := Qle_bool lo x && Qle_bool x hi.

(** The row an insert builds: [id default gen_random_uuid()],
    [created_at] and [event_time default now()], [media default '[]'],
    [status default 'unverified'], [validations_count default 0]. *)
Definition new_sighting (gen_random_uuid : string) (now : Z) (r : SightingInsert) : Sighting.t :=
  Sighting.mk gen_random_uuid now (default now (si_event_time r)) (si_lat r) (si_lng r)
    (si_activity_type r) (si_notes r) (default [] (si_media r))
    (default unverified (si_status r)) (default 0 (si_validations_count r)).

(** Policy [sightings_insert_anon], [with check], and the check
    constraints [sightings_lat_chk], [sightings_lng_chk],
    [sightings_activity_type_len_chk], [sightings_notes_len_chk], which ask
    the same of a row. *)
Definition sightings_insert_anon (s : Sighting.t) : bool :=
  in_range (-90) 90 (Sighting.lat s)
  && in_range (-180) 180 (Sighting.lng s)
  && Store.between 1 64 (Store.char_length (Sighting.activity_type s))
  && match Sighting.notes s with
     | Some n => bool_decide (Store.char_length n ≤ 2000)
     | None => true
     end.

Definition sightings_checks (s : Sighting.t) : bool := sightings_insert_anon s.

(** The values of an [integer] column. *)
Definition int4 (n : Z) : bool := Store.between (- 2 ^ 31) (2 ^ 31 - 1) n.

(** [insert into sightings ...] of one row; the table has no trigger.  A
    [validations_count] that does not fit the [integer] column fails the
    statement before any policy is looked at. *)
Definition insert_sighting (who : Session) (gen_random_uuid : string) (now : Z)
    (r : SightingInsert) (db : DB) : Result :=
  let new := new_sighting gen_random_uuid now r in
  if negb (from_option int4 true (si_validations_count r))
  then Err (mkError "22003" "value is out of range for type integer")
  else if negb (Store.bypasses_rls who || sightings_insert_anon new)
  then Err (mkError "42501" "new row violates row-level security policy for table sightings")
  else if negb (sightings_checks new)
  then Err (mkError "23514" "new row for relation sightings violates check constraint")
  else if bool_decide (is_Some (sightings db !! gen_random_uuid))
  then Err (mkError "23505" "duplicate key value violates unique constraint sightings_pkey")
  else Ok (Store.with_sightings (insert gen_random_uuid new) db).

End Reports.

Module CsvImport.

(** A record of the parsed CSV; the optional columns are [None] when the
    file has no such column. *)
Record CSVRow := mkRow {
  timestamp : string;
  lat : string;
  lng : string;
  activity_type : string;
  notes : option string;
  media_urls : option string
}.

(** [s.split(sep)] for a one-character separator. *)
Fixpoint split (sep : ascii) (s : string) : list string :=
  match s with
  | EmptyString => [EmptyString]
  | String c rest =>
      if bool_decide (c = sep) then EmptyString :: split sep rest
      else match split sep rest with
           | x :: xs => String c x :: xs
           | [] => [String c EmptyString]
           end
  end.

(** [s.split(sep).pop() || fallback] *)
Definition last_part (sep : ascii) (fallback : string) (s : string) : string :=
  match last (split sep s) with
  | Some part => if bool_decide (part = "") then fallback else part
  | None => fallback
  end.

(** The MIME type the import gives a media URL. *)
Definition media_type (url : string) : string :=
  let fileName := last_part "/" "media" url in
  let extension :=
    let e := Text.lower (default "" (last (split "." fileName))) in
    if bool_decide (e = "") then "jpg" else e in
  if bool_decide (extension ∈ ["jpg"; "jpeg"; "png"; "gif"; "webp"]) then "image/jpeg"
  else if bool_decide (extension ∈ ["mp4"; "webm"; "mov"]) then "video/mp4"
  else "image/jpeg".

(** The [media] array built from [row.media_urls]. *)
Definition parse_media (media_urls : option string) : list MediaItem :=
  match media_urls with
  | None => []
  | Some urls =>
      if bool_decide (urls = "") then []
      else (λ url, mkMediaItem url (media_type url))
             <$> filter (λ url, url ≠ "") (Text.js_trim <$> split "," urls)
  end.

Section Script.

(** [parseFloat]: the number read, or [None] when the result is [NaN] or
    infinite (which the range checks turn down with the same message). *)
Variable parseFloat : string → option Q.

(** [new Date(text).getTime()], [None] for an invalid date. *)
Variable parseDate : string → option Z.

Variable error_instanceof_Error : bool.

(** The body of the [try] block up to the insert: the error thrown, or the
    row to insert. *)
Definition parse_row (row : CSVRow) : string + SightingInsert :=
  match parseFloat (lat row) with
  | None => inl ("Invalid latitude: " +:+ lat row)
  | Some lat_ =>
      if negb (Reports.in_range (-90) 90 lat_) then inl ("Invalid latitude: " +:+ lat row)
      else
        match parseFloat (lng row) with
        | None => inl ("Invalid longitude: " +:+ lng row)
        | Some lng_ =>
            if negb (Reports.in_range (-180) 180 lng_)
            then inl ("Invalid longitude: " +:+ lng row)
            else
              match parseDate (timestamp row) with
              | None => inl ("Invalid timestamp: " +:+ timestamp row)
              | Some eventTime =>
                  if bool_decide (activity_type row = "")
                     || bool_decide (64 < Store.char_length (activity_type row))
                  then inl ("Invalid activity_type: " +:+ activity_type row)
                  else
                    match notes row with
                    | Some n =>
                        if negb (bool_decide (n = ""))
                           && bool_decide (2000 < Store.char_length n)
                        then inl ("Notes too long: "
                                  +:+ Privacy.Number_toString 10 (Store.char_length n)
                                  +:+ " chars (max 2000)")
                        else
                          inr (mkSightingInsert (Some eventTime) lat_ lng_
                                 (Text.js_trim (activity_type row))
                                 (if bool_decide (Text.js_trim n = "") then None
                                  else Some (Text.js_trim n))
                                 (Some (parse_media (media_urls row))) None None)
                    | None =>
                        inr (mkSightingInsert (Some eventTime) lat_ lng_
                               (Text.js_trim (activity_type row)) None
                               (Some (parse_media (media_urls row))) None None)
                    end
              end
        end
  end.

(** What the [catch] block records for an error of the store:
    [err instanceof Error ? err.message : String(err)]. *)
Definition store_error_text (e : PostgrestError) : string :=
  if error_instanceof_Error then message e else "[object Object]".

Record Summary := mkSummary {
  successCount : Z;
  errors : list (Z * string);
  after : DB
}.

(** The loop over [records] from index [i] on; [gen_random_uuid i] and
    [now i] are what the store draws for the row of index [i]. *)
Fixpoint import_from (gen_random_uuid : nat → string) (now : nat → Z)
    (i : nat) (records : list CSVRow) (acc : Summary) : Summary :=
  match records with
  | [] => acc
  | row :: rest =>
      let rowNum := Z.of_nat i + 2 in
      let acc' :=
        match parse_row row with
        | inl msg => mkSummary (successCount acc) (errors acc ++ [(rowNum, msg)]) (after acc)
        | inr r =>
            match Reports.insert_sighting service_role (gen_random_uuid i) (now i) r
                    (after acc) with
            | Err e =>
                mkSummary (successCount acc)
                  (errors acc ++ [(rowNum, store_error_text e)]) (after acc)
            | Ok db' => mkSummary (successCount acc + 1) (errors acc) db'
            end
        end in
      import_from gen_random_uuid now (S i) rest acc'
  end.

(** [importSightings]: [{ successCount, errorCount: errors.length }] with
    the error list and the database afterwards. *)
Definition importSightings (gen_random_uuid : nat → string) (now : nat → Z)
    (records : list CSVRow) (db : DB) : Summary :=
  import_from gen_random_uuid now 0 records (mkSummary 0 [] db).

End Script.

End CsvImport.

(** A sighting as the forms submit it: unverified, not yet validated, and
    with fields that pass the checks of the table. *)
Definition as_submitted (s : Sighting.t) : Prop :=
  Sighting.status s = unverified
  ∧ Sighting.validations_count s = 0
  ∧ Reports.sightings_checks s = true.

(** What the import loop has done between two of its states while working
    through [n] records from index [i] on. *)
Definition import_progress (i n : nat) (acc res : CsvImport.Summary) : Prop :=
  CsvImport.successCount acc ≤ CsvImport.successCount res
  ∧ (CsvImport.successCount res - CsvImport.successCount acc)
    + Z.of_nat (length (CsvImport.errors res)) - Z.of_nat (length (CsvImport.errors acc))
    = Z.of_nat n
  ∧ Z.of_nat (size (sightings (CsvImport.after res)))
    = Z.of_nat (size (sightings (CsvImport.after acc)))
      + (CsvImport.successCount res - CsvImport.successCount acc)
  ∧ (∃ es, CsvImport.errors res = (CsvImport.errors acc ++ es)%list
           ∧ Forall (λ e, Z.of_nat i + 2 ≤ e.1 < Z.of_nat i + 2 + Z.of_nat n) es
           ∧ StronglySorted (λ a b, a.1 < b.1) es)
  ∧ validations (CsvImport.after res) = validations (CsvImport.after acc)
  ∧ profiles (CsvImport.after res) = profiles (CsvImport.after acc)
  ∧ (∀ k s, sightings (CsvImport.after acc) !! k = Some s →
        sightings (CsvImport.after res) !! k = Some s)
  ∧ (∀ k s, sightings (CsvImport.after res) !! k = Some s →
        sightings (CsvImport.after acc) !! k = Some s ∨ as_submitted s).

Module ReportPage.

(** What the form uses of a selected file, together with what the handler
    draws while uploading it: the outcome of [scrubMediaFile] (an error
    message if it rejects), [Date.now()] and
    [Math.random().toString(36).substring(7)]. *)
Record Upload := mkUpload {
  file_name : string;
  file_type : string;
  scrub_error : option string;
  stamp : Z;
  random : string
}.

(** The [useState] cells the handler writes. *)
Record FormState := mkForm { loading : bool; error : option string; success : bool }.

(** [!lat] for [lat : number | null]: no value, or zero. *)
Definition no_number (x : option Q) : bool :=
  match x with
  | None => true
  | Some q => Qeq_bool q 0
  end.

Definition file_path (u : Upload) : string :=
  "sightings/" +:+ Privacy.Number_toString 10 (stamp u) +:+ "-" +:+ random u +:+ "."
  +:+ default "" (last (CsvImport.split "." (file_name u))).

Section Page.

(** The media bucket, and
    [supabase.storage.from('sightings-media').upload(filePath, blob,
    { contentType, upsert: false })]: the message of [uploadError], if any,
    and the bucket afterwards. *)
Variable Bucket : Type.
Variable upload : string → string → Bucket → option string * Bucket.

(** [new Date(eventTime).getTime()], [None] for an invalid date. *)
Variable parseDate : string → option Z.

Variable error_instanceof_Error : bool.

(** The [for] loop over [mediaFiles]: the error thrown, if any, the
    bucket, and [mediaUrls] so far. *)
Fixpoint upload_all (files : list Upload) (bucket : Bucket) (mediaUrls : list MediaItem)
    : option string * Bucket * list MediaItem :=
  match files with
  | [] => (None, bucket, mediaUrls)
  | f :: rest =>
      match scrub_error f with
      | Some msg => (Some msg, bucket, mediaUrls)
      | None =>
          match upload (file_path f) (file_type f) bucket with
          | (Some uploadError, bucket') => (Some uploadError, bucket', mediaUrls)
          | (None, bucket') =>
              upload_all rest bucket'
                (mediaUrls ++ [mkMediaItem (file_path f) (file_type f)])
          end
      end
  end.

(** [handleSubmit] of the report page; [st] holds the cells as they were. *)
Definition handleSubmit (user : option string) (lat lng : option Q)
    (activityType notes eventTime : string) (mediaFiles : list Upload)
    (gen_random_uuid : string) (now : Z)
    (st : FormState) (bucket : Bucket) (db : DB) : FormState * Bucket * DB :=
  if no_number lat || no_number lng
  then (mkForm false
          (Some "Please select a location on the map or enable location access.")
          (success st),
        bucket, db)
  else if bool_decide (Text.js_trim activityType = "")
  then (mkForm false (Some "Please enter an activity type.") (success st), bucket, db)
  else
    match upload_all mediaFiles bucket [] with
    | (Some msg, bucket', _) => (mkForm false (Some msg) (success st), bucket', db)
    | (None, bucket', mediaUrls) =>
        match parseDate eventTime with
        | None => (mkForm false (Some "Invalid time value") (success st), bucket', db)
        | Some t =>
            match Reports.insert_sighting (Drawer.session_of user) gen_random_uuid now
                    (mkSightingInsert (Some t) (default 0%Q lat) (default 0%Q lng)
                       (Text.js_trim activityType)
                       (if bool_decide (Text.js_trim notes = "") then None
                        else Some (Text.js_trim notes))
                       (Some mediaUrls) None None) db with
            | Err insertError =>
                (mkForm false
                   (Some (if error_instanceof_Error then message insertError
                          else "Failed to submit report."))
                   (success st), bucket', db)
            | Ok db' => (mkForm false None true, bucket', db')
            end
        end
    end.

End Page.

End ReportPage.

(** ** The home page: [formatTimeAgo] *)

Module Home.

(** [formatTimeAgo(dateString)]; [date] is [new Date(dateString).getTime()],
    [None] for an invalid date, and [now] is [new Date().getTime()]. *)
Definition formatTimeAgo (date : option Z) (now : Z) : string :=
  match date with
  | None => "NaNd ago"
  | Some date =>
      let diffMs := now - date in
      let diffMins := diffMs `div` 60000 in
      let diffHours := diffMs `div` 3600000 in
      let diffDays := diffMs `div` 86400000 in
      if diffMins <? 1 then "Just now"
      else if diffMins <? 60 then Privacy.Number_toString 10 diffMins +:+ "m ago"
      else if diffHours <? 24 then Privacy.Number_toString 10 diffHours +:+ "h ago"
      else Privacy.Number_toString 10 diffDays +:+ "d ago"
  end.

End Home.

(** ** The trigger function of the first migration *)

Module StoreV1.

(** [recompute_sighting_validations()] as [init_iceout] defined it: no
    look at the current status, and one threshold. *)
Definition recompute_sighting_validations (v_sighting_id : string) (db : DB) : DB :=
  let v_count := Store.count_validations v_sighting_id db in
  Store.with_sightings
    (alter (λ s, Sighting.mk (Sighting.id s) (Sighting.created_at s) (Sighting.event_time s)
                   (Sighting.lat s) (Sighting.lng s) (Sighting.activity_type s)
                   (Sighting.notes s) (Sighting.media s)
                   (if bool_decide (3 ≤ v_count) then verified else unverified) v_count)
       v_sighting_id)
    db.

End StoreV1.

(** ** More sample data *)

Module Sample2.

Definition carol : string := "0c000000-0000-4000-8000-00000000000c".
Definition dave : string := "0d000000-0000-4000-8000-00000000000d".
Definition erin : string := "0e000000-0000-4000-8000-00000000000e".

(** [carol] administers; [alice] and [bob] are as before. *)
Definition staff : gmap string Profile.t :=
  <[carol := Profile.mk carol admin 0]> Sample.people.

Definition office : DB := Sample.db_of Sample.plain staff.

Definition registry : AuthDB := mkAuthDB office ∅ ∅.

(** The plain report once three devices have validated it. *)
Definition verified_town : DB := run Sample.three_votes Sample.town.

Definition fp4 : string := "d6e4f5a7b8c9203b4c5d6e7f80912345".

(** An auth service that knows the tokens of [carol]'s and of [bob]'s
    session and throws a [TypeError] on a token that is not a string. *)
Definition setSession (access_token refresh_token : InviteRoute.Field) : InviteRoute.Outcome :=
  match access_token, refresh_token with
  | InviteRoute.Str a, InviteRoute.Str _ =>
      if bool_decide (a = "access-carol") then InviteRoute.SessionOf carol
      else if bool_decide (a = "access-bob") then InviteRoute.SessionOf Sample.bob
      else InviteRoute.Refused
  | _, _ => InviteRoute.Thrown (Some "token.split is not a function")
  end.

(** A stand-in for [new URL(referer).origin]. *)
Definition origin (url : string) : option string :=
  if bool_decide (url = "https://iceout.example/admin") then Some "https://iceout.example"
  else None.

(** A client library that accepts https URLs of the project. *)
Definition createClient (url key : string) : option string :=
  if bool_decide (url = "https://iceout.supabase.co") then None
  else Some "Invalid supabaseUrl: Must be a valid HTTP or HTTPS URL.".

Definition env : InviteRoute.Env :=
  InviteRoute.mkEnv (Some "https://iceout.supabase.co") (Some "anon-key") (Some "service-key").

Definition invited_at : Z := 1769800000000.

(** An auth service that creates the invited user as [dave]. *)
Definition inviteUserByEmail (email : string) (redirectTo : option string) (adb : AuthDB)
    : option string * AuthDB :=
  match Roles.create_user dave (Some email) invited_at adb with
  | AuthOk adb2 => (None, adb2)
  | AuthErr err => (Some (message err), adb)
  end.

(** [carol], the admin, invites dave. *)
Definition invitation : InviteRoute.Body :=
  InviteRoute.Props (InviteRoute.Str " Dave@Example.org ")
    (InviteRoute.Str "access-carol") (InviteRoute.Str "refresh-carol").

(** The plain report, confirmed by a statement of the service role. *)
Definition confirmed_town : DB :=
  commit (Store.update_sighting_status service_role Sample.sid confirmed Sample.town)
    Sample.town.

(** Two reports, one with a photo, and validations for both of them. *)
Definition sid2 : string := "1b4e28ba-2fa1-41d2-883f-0016d3cca427".

Definition elsewhere : Sighting.t :=
  Sighting.mk sid2 1769700000000 1769698000000 (4073060 # 100000) (-7393520 # 100000)
    "Presence" None [] unverified 0.

Definition two_reports : DB :=
  mkDB {[ Sample.sid := Sample.with_photo; sid2 := elsewhere ]} [] ∅ ∅.

Definition mixed_votes : list Statement :=
  [ InsertValidation anon "v1" 1769700100000 (Sample.vote Sample.fp1);
    InsertValidation anon "w1" 1769700150000
      (mkInsert sid2 None None None None (Some Sample.fp1) (Some true));
    InsertValidation anon "v2" 1769700200000 (Sample.vote Sample.fp2) ].

(** A CSV file of three records, the second with a latitude out of range. *)
Definition csv : list CsvImport.CSVRow :=
  [ CsvImport.mkRow "2026-01-26T14:30:00Z" "40.7128" "-74.0060" "Vehicle stop"
      (Some "ICE vehicle observed") (Some "https://example.com/photo.jpg");
    CsvImport.mkRow "2026-01-26T15:00:00Z" "140.7128" "-74.0060" "Checkpoint" None None;
    CsvImport.mkRow "2026-01-26T16:00:00Z" "40.7306" "-73.9352" "Presence" (Some "") (Some "") ].

End Sample2.

(** * Properties of the status-promotion engine *)

Section Promotion.

Import Store.

Implicit Types (db : DB) (sid : string) (s : Sighting.t).

Lemma DB_eta db : mkDB (sightings db) (validations db) (profiles db) (auth_users db) = db.
Proof. by destruct db. Qed.

(** The case expression of the trigger is the threshold rule of the
    specification, for a media array of any length. *)
Lemma promoted_status_threshold (v_count : Z) (n : nat) :
  promoted_status v_count (Z.of_nat n)
  = Spec.derived_status v_count (Spec.effectiveThreshold (Z.of_nat n)).
Proof.
  unfold promoted_status, Spec.derived_status, Spec.effectiveThreshold.
  repeat case_bool_decide; simpl; try reflexivity; lia.
Qed.

(** The three ways the trigger function can go. *)
Lemma recompute_absent db sid :
  sightings db !! sid = None → recompute_sighting_validations sid db = db.
Proof.
  intros Hs. unfold recompute_sighting_validations, with_sightings.
  rewrite Hs. case_bool_decide; simplify_eq/=.
  rewrite alter_id' by done. apply DB_eta.
Qed.

Lemma recompute_confirmed db sid s :
  sightings db !! sid = Some s → Sighting.status s = confirmed →
  recompute_sighting_validations sid db = db.
Proof.
  intros Hs Hc. unfold recompute_sighting_validations.
  rewrite Hs. case_bool_decide as Hn; [done|].
  exfalso. apply Hn. simpl. by rewrite Hc.
Qed.

Lemma recompute_open db sid s :
  sightings db !! sid = Some s → Sighting.status s ≠ confirmed →
  recompute_sighting_validations sid db
  = with_sightings
      (insert sid (set_count_status (count_validations sid db)
                     (Z.of_nat (length (Sighting.media s))) s)) db.
Proof.
  intros Hs Hc. unfold recompute_sighting_validations.
  rewrite Hs. case_bool_decide; simplify_eq/=.
  unfold with_sightings. f_equal.
  rewrite (alter_alt_Some _ _ _ _ Hs).
  by rewrite bool_decide_eq_true_2.
Qed.

Lemma recompute_validations db sid :
  validations (recompute_sighting_validations sid db) = validations db.
Proof.
  unfold recompute_sighting_validations. by case_bool_decide.
Qed.

Lemma count_validations_recompute db sid sid' :
  count_validations sid (recompute_sighting_validations sid' db) = count_validations sid db.
Proof. unfold count_validations. by rewrite recompute_validations. Qed.

(** A confirmed row survives the trigger, whichever sighting it runs for. *)
Lemma recompute_keeps_confirmed db sid sid' s :
  sightings db !! sid = Some s → Sighting.status s = confirmed →
  sightings (recompute_sighting_validations sid' db) !! sid = Some s.
Proof.
  intros Hs Hc. unfold recompute_sighting_validations.
  case_bool_decide; [done|]. simpl.
  rewrite lookup_alter. case_decide as Heq; [|done].
  subst sid'. rewrite Hs; simpl.
  rewrite bool_decide_eq_false_2; [done|]. intros Hn. by apply Hn.
Qed.

Lemma recompute_rows_keeps_confirmed (old : list Validation.t) db sid s :
  sightings db !! sid = Some s → Sighting.status s = confirmed →
  sightings (foldl (λ d v, recompute_sighting_validations (Validation.sighting_id v) d) db old)
    !! sid = Some s.
Proof.
  revert db. induction old as [|v old IH]; intros db Hs Hc; simpl; [done|].
  apply IH; [|done]. by apply recompute_keeps_confirmed.
Qed.

Lemma exec_keeps_confirmed db sid s (c : Statement) :
  sightings db !! sid = Some s → Sighting.status s = confirmed →
  sightings (exec db c) !! sid = Some s.
Proof.
  intros Hs Hc. destruct c as [who uuid now r|who vid]; simpl.
  - unfold insert_validation.
    repeat (case_match; simpl; try done).
    by apply recompute_keeps_confirmed.
  - unfold delete_validation. case_match; simpl; [|done].
    by apply recompute_rows_keeps_confirmed.
Qed.

(** The trigger's [count( * ) ... where sighting_id = v_sighting_id] counts
    the rows that reference the sighting, and no other. *)
Lemma count_validations_referencing db sid :
  count_validations sid db = Spec.referencing sid (validations db).
Proof.
  unfold count_validations.
  induction (validations db) as [|v rows IH]; [done|].
  rewrite filter_cons. simpl Spec.referencing.
  destruct (decide (Validation.sighting_id v = sid)) as [Hv|Hv].
  - rewrite bool_decide_eq_true_2 by done. simpl length. lia.
  - rewrite bool_decide_eq_false_2 by done. lia.
Qed.

End Promotion.

Section PromotionClaims.

Import Store.

Implicit Types (db : DB) (sid : string) (s : Sighting.t).

(** C1. For every sighting whose current status is not [confirmed], the
    trigger sets [validations_count] to the number of validation rows that
    reference the sighting, and [status] to [verified] if that count reaches
    the effective threshold (2 with at least one media attachment, 3
    otherwise) and to [unverified] otherwise; no other column changes. *)
Theorem recompute_sets_count_and_status db sid s :
  sightings db !! sid = Some s →
  Sighting.status s ≠ confirmed →
  let n := Spec.referencing sid (validations db) in
  let threshold := Spec.effectiveThreshold (Z.of_nat (length (Sighting.media s))) in
  sightings (recompute_sighting_validations sid db) !! sid
  = Some (Sighting.mk (Sighting.id s) (Sighting.created_at s) (Sighting.event_time s)
            (Sighting.lat s) (Sighting.lng s) (Sighting.activity_type s)
            (Sighting.notes s) (Sighting.media s)
            (if bool_decide (threshold ≤ n) then verified else unverified) n).
Proof.
  intros Hs Hc n threshold.
  rewrite (recompute_open _ _ _ Hs Hc). simpl.
  rewrite lookup_insert_eq. unfold set_count_status.
  rewrite promoted_status_threshold.
  by rewrite count_validations_referencing.
Qed.

Lemma recompute_sets_count_and_status_witness :
  let db := run Sample2.mixed_votes Sample2.two_reports in
  let after := sightings (recompute_sighting_validations Sample.sid db) !! Sample.sid in
  length (validations db) = 3%nat
  ∧ Spec.referencing Sample.sid (validations db) = 2
  ∧ Sighting.validations_count <$> after = Some 2
  ∧ Sighting.status <$> after = Some verified.
Proof.
  intros db after. split; [by vm_compute|]. split; [by vm_compute|].
  assert (Hs : sightings db !! Sample.sid
               = Some (Store.set_count_status 2 1 Sample.with_photo)) by (by vm_compute).
  subst after.
  rewrite (recompute_sets_count_and_status db Sample.sid _ Hs); [|by vm_compute].
  split; by vm_compute.
Defined.

(** C2. For a sighting whose status is [confirmed] the trigger is a no-op,
    and no history of validation inserts and deletes changes its row: neither
    [status] nor [validations_count] (nor any other column) moves. *)
Theorem recompute_confirmed_noop db sid s :
  sightings db !! sid = Some s →
  Sighting.status s = confirmed →
  recompute_sighting_validations sid db = db
  ∧ ∀ cs : list Statement, sightings (run cs db) !! sid = Some s.
Proof.
  intros Hs Hc. split; [by eapply recompute_confirmed|].
  intros cs. revert db Hs. unfold run.
  induction cs as [|c cs IH]; intros db Hs; simpl; [done|].
  apply IH. by apply exec_keeps_confirmed.
Qed.

(** C10. The trigger is idempotent: run twice in a row on the same
    validation rows and media it leaves the database, and so
    [validations_count] and [status], as the first run did. *)
Theorem recompute_idempotent db sid :
  recompute_sighting_validations sid (recompute_sighting_validations sid db)
  = recompute_sighting_validations sid db.
Proof.
  destruct (sightings db !! sid) as [s|] eqn:Hs.
  - destruct (decide (Sighting.status s = confirmed)) as [Hc|Hc].
    + by rewrite !(recompute_confirmed _ _ _ Hs Hc).
    + rewrite (recompute_open _ _ _ Hs Hc).
      set (s' := set_count_status _ _ s).
      set (db' := with_sightings _ db).
      assert (Hs' : sightings db' !! sid = Some s') by apply lookup_insert_eq.
      assert (Hc' : Sighting.status s' ≠ confirmed).
      { subst s'. unfold set_count_status, promoted_status; simpl.
        repeat case_match; discriminate. }
      rewrite (recompute_open _ _ _ Hs' Hc').
      unfold with_sightings, db'; simpl. f_equal.
      by rewrite insert_insert_eq.
  - by rewrite !(recompute_absent _ _ Hs).
Qed.

(** C5 (as the code has it). For a sighting whose status is [verified] the
    trigger keeps [verified] exactly when the validation rows still reach the
    effective threshold and sets [unverified] otherwise; it never sets
    [confirmed]. *)
Theorem recompute_verified_follows_threshold db sid s :
  sightings db !! sid = Some s →
  Sighting.status s = verified →
  Sighting.status <$> sightings (recompute_sighting_validations sid db) !! sid
  = Some (if bool_decide (Spec.effectiveThreshold (Z.of_nat (length (Sighting.media s)))
                          ≤ count_validations sid db)
          then verified else unverified).
Proof.
  intros Hs Hv.
  assert (Hc : Sighting.status s ≠ confirmed) by (rewrite Hv; discriminate).
  rewrite (recompute_open _ _ _ Hs Hc). simpl.
  rewrite lookup_insert_eq. simpl.
  by rewrite promoted_status_threshold.
Qed.

End PromotionClaims.

Lemma recompute_confirmed_noop_witness :
  let db := Sample2.confirmed_town in
  Sighting.status <$> sightings db !! Sample.sid = Some confirmed
  ∧ Sighting.status <$>
      sightings (run (Sample.three_votes ++ [DeleteValidation service_role "v1"]) db)
        !! Sample.sid = Some confirmed.
Proof.
  intros db. split; [by vm_compute|].
  destruct (recompute_confirmed_noop db Sample.sid (Store.set_status confirmed Sample.plain))
    as [_ H]; [by vm_compute|reflexivity|].
  by rewrite H.
Defined.

Lemma recompute_verified_follows_threshold_witness :
  let db := run Sample.three_votes Sample.town in
  Sighting.status <$>
    sightings (Store.recompute_sighting_validations Sample.sid db) !! Sample.sid
  = Some verified.
Proof.
  intros db.
  rewrite (recompute_verified_follows_threshold db Sample.sid
             (Store.set_count_status 3 0 Sample.plain));
    [by vm_compute|by vm_compute|reflexivity].
Defined.

(** The thresholds at work: without media the third validation verifies a
    report, with a photo the second one does. *)
Example threshold_without_media :
  Sighting.status <$> sightings (run (take 2 Sample.three_votes) Sample.town) !! Sample.sid
  = Some unverified
  ∧ Sighting.status <$> sightings (run Sample.three_votes Sample.town) !! Sample.sid
    = Some verified.
Proof. by vm_compute. Qed.

Example threshold_with_media :
  let db := Sample.db_of Sample.with_photo ∅ in
  Sighting.status <$> sightings (run (take 1 Sample.three_votes) db) !! Sample.sid
  = Some unverified
  ∧ Sighting.status <$> sightings (run (take 2 Sample.three_votes) db) !! Sample.sid
    = Some verified.
Proof. by vm_compute. Qed.

(** C5 as stated fails: three validations verify the report, and deleting
    one of them makes the delete trigger set it back to [unverified]. *)
Lemma verified_regresses_after_delete :
  let db := run Sample.three_votes Sample.town in
  (Sighting.status <$> sightings db !! Sample.sid = Some verified
   ∧ Sighting.validations_count <$> sightings db !! Sample.sid = Some 3)
  ∧ let db' := exec db (DeleteValidation service_role "v3") in
    Sighting.status <$> sightings db' !! Sample.sid = Some unverified
    ∧ Sighting.validations_count <$> sightings db' !! Sample.sid = Some 2.
Proof. by vm_compute. Qed.

(** * Properties of validation admission *)

Section Admission.

Import Store.

Implicit Types (db : DB) (sid fp uuid : string) (v : Validation.t).

Lemma pkey_Forall v (rows : list Validation.t) :
  Forall (λ w, Validation.id w ≠ Validation.id v) rows → validations_pkey v rows = true.
Proof.
  unfold validations_pkey. induction 1 as [|w rows Hw _ IH]; simpl; [done|].
  rewrite IH. by rewrite bool_decide_eq_false_2.
Qed.

(** The unique index on [(sighting_id, device_fingerprint)] accepts a row
    exactly when its device holds no row for the sighting yet. *)
Lemma unique_device_free v (rows : list Validation.t) fp :
  Validation.device_fingerprint v = Some fp →
  validations_unique_device_per_sighting v rows = true
  ↔ filter (λ w, Validation.sighting_id w = Validation.sighting_id v
                 ∧ Validation.device_fingerprint w = Some fp) rows = [].
Proof.
  intros Hfp. unfold validations_unique_device_per_sighting. rewrite Hfp.
  induction rows as [|w rows IH]; simpl; [done|].
  rewrite filter_cons.
  destruct (decide (Validation.sighting_id w = Validation.sighting_id v
                    ∧ Validation.device_fingerprint w = Some fp)) as [[H1 H2]|Hn].
  - rewrite !bool_decide_eq_true_2 by done. simpl. split; discriminate.
  - rewrite <- IH.
    destruct (decide (Validation.sighting_id w = Validation.sighting_id v)) as [H1|H1];
      [|by rewrite (bool_decide_eq_false_2 _ H1)].
    destruct (decide (Validation.device_fingerprint w = Some fp)) as [H2|H2];
      [exfalso; by apply Hn|].
    by rewrite (bool_decide_eq_false_2 _ H2), andb_false_r.
Qed.

Lemma between_true (lo hi x : Z) : lo ≤ x ≤ hi → between lo hi x = true.
Proof. intros [??]. unfold between. by rewrite !bool_decide_eq_true_2. Qed.

(** An acceptable validation whose device slot is free is inserted and the
    trigger runs. *)
Lemma insert_validation_admitted user sid fp uuid now db :
  acceptable user sid fp uuid db →
  device_rows sid fp db = [] →
  insert_validation (Drawer.session_of user) uuid now
    (mkInsert sid None None None user (Some fp) (Some true)) db
  = Ok (recompute_sighting_validations sid
          (mkDB (sightings db) (validations db ++ [admitted_row user sid fp uuid now])
             (profiles db) (auth_users db))).
Proof.
  intros (Hlen & Hs & Hu & Hid) Hfree. unfold insert_validation.
  set (new := new_validation _ _ _).
  assert (Hrls : validations_insert_anon new = true) by by apply between_true.
  assert (Hchk : validations_validator_hash_len_chk new
                 && validations_device_fingerprint_len_chk new = true).
  { unfold validations_device_fingerprint_len_chk; simpl.
    destruct Hlen. by rewrite !bool_decide_eq_true_2. }
  assert (Hpk : validations_pkey new (validations db) = true) by by apply pkey_Forall.
  assert (Hud : validations_unique_device_per_sighting new (validations db) = true)
    by by apply (unique_device_free new _ fp).
  assert (Hfk : validations_fkeys new db = true).
  { unfold validations_fkeys; simpl. rewrite bool_decide_eq_true_2 by done.
    destruct user; [by rewrite bool_decide_eq_true_2|done]. }
  rewrite Hrls, orb_true_r, Hchk, Hpk, Hud, Hfk. done.
Qed.

(** A validation from a device that already holds a row for the sighting
    fails on the unique index, whoever is signed in and whatever row id is
    drawn. *)
Lemma insert_validation_duplicate user sid fp uuid now db :
  16 ≤ char_length fp ≤ 256 →
  device_rows sid fp db ≠ [] →
  insert_validation (Drawer.session_of user) uuid now
    (mkInsert sid None None None user (Some fp) (Some true)) db
  = Err unique_violation.
Proof.
  intros Hlen Hheld. unfold insert_validation.
  set (new := new_validation _ _ _).
  assert (Hrls : validations_insert_anon new = true) by by apply between_true.
  assert (Hchk : validations_validator_hash_len_chk new
                 && validations_device_fingerprint_len_chk new = true).
  { unfold validations_device_fingerprint_len_chk; simpl.
    destruct Hlen. by rewrite !bool_decide_eq_true_2. }
  assert (Hud : validations_unique_device_per_sighting new (validations db) = false).
  { apply not_true_is_false. intros Hud. apply Hheld.
    by apply (unique_device_free new _ fp). }
  rewrite Hrls, orb_true_r, Hchk, Hud, andb_false_r. done.
Qed.

Lemma device_rows_recompute sid sid' fp db :
  device_rows sid fp (recompute_sighting_validations sid' db) = device_rows sid fp db.
Proof. unfold device_rows. by rewrite recompute_validations. Qed.

End Admission.

Section Invariant.

Import Store.

Implicit Types (db : DB) (sid fp uuid : string) (v : Validation.t).

Lemma insert_keeps_one_row who uuid now r db db' :
  one_row_per_device db →
  insert_validation who uuid now r db = Ok db' →
  one_row_per_device db'.
Proof.
  intros Hinv. unfold insert_validation.
  set (new := new_validation _ _ _).
  destruct (negb (bypasses_rls who || validations_insert_anon new)); [done|].
  destruct (negb (validations_validator_hash_len_chk new
                  && validations_device_fingerprint_len_chk new)); [done|].
  destruct (validations_pkey new (validations db)); [|done].
  destruct (validations_unique_device_per_sighting new (validations db)) eqn:Hud; [|done].
  destruct (validations_unique_hash_per_sighting new (validations db)); [|done].
  simpl. destruct (negb (validations_fkeys new db)); [done|].
  intros [= <-] sid fp.
  rewrite device_rows_recompute. unfold device_rows; simpl.
  rewrite filter_app, length_app, filter_cons, filter_nil.
  case_decide as Hnew; simpl; [|specialize (Hinv sid fp); unfold device_rows in Hinv; lia].
  destruct Hnew as [Hsid Hfp].
  apply (unique_device_free new _ fp Hfp) in Hud.
  rewrite Hsid in Hud. rewrite Hud. simpl. lia.
Qed.

Lemma recompute_rows_validations (old : list Validation.t) db :
  validations (foldl (λ d v, recompute_sighting_validations (Validation.sighting_id v) d) db old)
  = validations db.
Proof.
  revert db. induction old as [|v old IH]; intros db; simpl; [done|].
  by rewrite IH, recompute_validations.
Qed.

Lemma filter_filter_length {A} (P Q : A → Prop)
    `{!∀ x, Decision (P x), !∀ x, Decision (Q x)} (l : list A) :
  (length (filter P (filter Q l)) ≤ length (filter P l))%nat.
Proof.
  induction l as [|x l IH]; simpl; [done|].
  rewrite !filter_cons. repeat (case_decide; simpl; rewrite ?filter_cons); lia.
Qed.

Lemma delete_keeps_one_row who vid db db' :
  one_row_per_device db →
  delete_validation who vid db = Ok db' →
  one_row_per_device db'.
Proof.
  intros Hinv. unfold delete_validation.
  destruct (bypasses_rls who); [|by intros [= <-]].
  intros [= <-] sid fp.
  unfold device_rows. rewrite recompute_rows_validations. simpl.
  etrans; [apply filter_filter_length|]. apply Hinv.
Qed.

Lemma exec_keeps_one_row db (c : Statement) :
  one_row_per_device db → one_row_per_device (exec db c).
Proof.
  intros Hinv. destruct c as [who uuid now r|who vid]; simpl.
  - destruct (insert_validation who uuid now r db) as [db'|e] eqn:Hins; simpl; [|done].
    by eapply insert_keeps_one_row.
  - destruct (delete_validation who vid db) as [db'|e] eqn:Hdel; simpl; [|done].
    by eapply delete_keeps_one_row.
Qed.

Lemma run_keeps_one_row (cs : list Statement) db :
  one_row_per_device db → one_row_per_device (run cs db).
Proof.
  revert db. unfold run. induction cs as [|c cs IH]; intros db Hinv; simpl; [done|].
  apply IH. by apply exec_keeps_one_row.
Qed.

End Invariant.

(** * Properties of the drawer *)

Section DrawerClaims.

Import Store.

Variable isWithinProximity : Q → Q → Q → Q → Q → bool.
Variable error_instanceof_Error : bool.

Abbreviation handleValidate :=
  (Drawer.handleValidate isWithinProximity error_instanceof_Error).

Implicit Types (db : DB) (fp uuid : string) (s : Sighting.t) (st : DrawerState)
  (user : option string).

Lemma handleValidate_out_of_range user s lat lng fp uuid now st db :
  validating st || validationSuccess st = false →
  isWithinProximity lat lng (Sighting.lat s) (Sighting.lng s) 500 = false →
  handleValidate user (Some s) (Position lat lng) fp uuid now st db
  = (Drawer.set_validation false (Some Spec.OUT_OF_RANGE) false st, db).
Proof. intros Hst Hfar. unfold Drawer.handleValidate. by rewrite Hst, Hfar. Qed.

Lemma handleValidate_admitted user s lat lng fp uuid now st db :
  validating st || validationSuccess st = false →
  isWithinProximity lat lng (Sighting.lat s) (Sighting.lng s) 500 = true →
  acceptable user (Sighting.id s) fp uuid db →
  device_rows (Sighting.id s) fp db = [] →
  handleValidate user (Some s) (Position lat lng) fp uuid now st db
  = (Drawer.set_validation false None true st,
     recompute_sighting_validations (Sighting.id s)
       (mkDB (sightings db)
          (validations db ++ [admitted_row user (Sighting.id s) fp uuid now])
          (profiles db) (auth_users db))).
Proof.
  intros Hst Hnear Hok Hfree. unfold Drawer.handleValidate.
  rewrite Hst, Hnear; simpl.
  by rewrite insert_validation_admitted.
Qed.

Lemma handleValidate_duplicate user s lat lng fp uuid now st db :
  validating st || validationSuccess st = false →
  isWithinProximity lat lng (Sighting.lat s) (Sighting.lng s) 500 = true →
  16 ≤ char_length fp ≤ 256 →
  device_rows (Sighting.id s) fp db ≠ [] →
  handleValidate user (Some s) (Position lat lng) fp uuid now st db
  = (Drawer.set_validation false (Some Spec.DUPLICATE_DEVICE) false st, db).
Proof.
  intros Hst Hnear Hlen Hheld. unfold Drawer.handleValidate.
  rewrite Hst, Hnear; simpl.
  by rewrite insert_validation_duplicate.
Qed.

(** After an admission the device holds exactly the admitted row. *)
Lemma device_rows_admitted user sid fp uuid now db :
  device_rows sid fp db = [] →
  device_rows sid fp
    (recompute_sighting_validations sid
       (mkDB (sightings db) (validations db ++ [admitted_row user sid fp uuid now])
          (profiles db) (auth_users db)))
  = [admitted_row user sid fp uuid now].
Proof.
  intros Hfree. rewrite device_rows_recompute. unfold device_rows in *; simpl.
  rewrite filter_app, Hfree, filter_cons, filter_nil; simpl.
  by rewrite decide_True.
Qed.

(** C3. The store never holds two validation rows for one (sighting,
    device) pair, and of two validations sent from the same device for the
    same sighting the first is admitted and the second is turned down as a
    duplicate without a second row; the two submissions are arbitrary, so
    this holds whichever of them comes first. *)
Theorem one_validation_per_device db fp
    (sa sb : Sighting.t) (ua ub : option string) (lata lnga latb lngb : Q)
    (ida idb : string) (ta tb : Z) (sta stb : DrawerState) :
  one_row_per_device db →
  Sighting.id sa = Sighting.id sb →
  acceptable ua (Sighting.id sa) fp ida db →
  device_rows (Sighting.id sa) fp db = [] →
  validating sta || validationSuccess sta = false →
  validating stb || validationSuccess stb = false →
  isWithinProximity lata lnga (Sighting.lat sa) (Sighting.lng sa) 500 = true →
  isWithinProximity latb lngb (Sighting.lat sb) (Sighting.lng sb) 500 = true →
  let ra := handleValidate ua (Some sa) (Position lata lnga) fp ida ta sta db in
  let rb := handleValidate ub (Some sb) (Position latb lngb) fp idb tb stb ra.2 in
  (validationSuccess ra.1 = true ∧ validationError ra.1 = None)
  ∧ (validationSuccess rb.1 = false ∧ validationError rb.1 = Some Spec.DUPLICATE_DEVICE)
  ∧ rb.2 = ra.2
  ∧ device_rows (Sighting.id sa) fp rb.2 = [admitted_row ua (Sighting.id sa) fp ida ta]
  ∧ ∀ cs : list Statement, one_row_per_device (run cs rb.2).
Proof.
  intros Hinv Hid Hok Hfree Hsta Hstb Hna Hnb ra rb.
  assert (Hra : ra = (Drawer.set_validation false None true sta,
                      recompute_sighting_validations (Sighting.id sa)
                        (mkDB (sightings db)
                           (validations db ++ [admitted_row ua (Sighting.id sa) fp ida ta])
                           (profiles db) (auth_users db))))
    by by apply handleValidate_admitted.
  assert (Hrows : device_rows (Sighting.id sa) fp ra.2
                  = [admitted_row ua (Sighting.id sa) fp ida ta])
    by (rewrite Hra; by apply device_rows_admitted).
  assert (Hrb : rb = (Drawer.set_validation false (Some Spec.DUPLICATE_DEVICE) false stb, ra.2)).
  { apply handleValidate_duplicate; [done|done|apply Hok|].
    rewrite <- Hid, Hrows. discriminate. }
  assert (Hinv' : one_row_per_device ra.2).
  { apply (exec_keeps_one_row db
             (InsertValidation (Drawer.session_of ua) ida ta
                (mkInsert (Sighting.id sa) None None None ua (Some fp) (Some true)))) in Hinv.
    simpl in Hinv. rewrite insert_validation_admitted in Hinv by done.
    by rewrite Hra. }
  rewrite Hrb; simpl. rewrite Hrows. rewrite Hra; simpl.
  repeat split; try done.
  intros cs. apply run_keeps_one_row. by rewrite Hra in Hinv'.
Qed.

(** C4. The proximity gate comes before the insert: an observer out of
    range is told so and nothing is persisted (the database is untouched,
    whatever it holds), and the same device, retrying from within range, is
    admitted and holds its one row. *)
Theorem out_of_range_persists_nothing db fp s user (lat lng : Q) uuid (now : Z) st :
  validating st || validationSuccess st = false →
  isWithinProximity lat lng (Sighting.lat s) (Sighting.lng s) 500 = false →
  let r := handleValidate user (Some s) (Position lat lng) fp uuid now st db in
  validationError r.1 = Some Spec.OUT_OF_RANGE
  ∧ validationSuccess r.1 = false
  ∧ r.2 = db
  ∧ ∀ (lat' lng' : Q) (uuid' : string) (now' : Z),
      isWithinProximity lat' lng' (Sighting.lat s) (Sighting.lng s) 500 = true →
      acceptable user (Sighting.id s) fp uuid' db →
      device_rows (Sighting.id s) fp db = [] →
      let r' := handleValidate user (Some s) (Position lat' lng') fp uuid' now' r.1 r.2 in
      validationSuccess r'.1 = true
      ∧ validationError r'.1 = None
      ∧ device_rows (Sighting.id s) fp r'.2 = [admitted_row user (Sighting.id s) fp uuid' now'].
Proof.
  intros Hst Hfar r.
  assert (Hr : r = (Drawer.set_validation false (Some Spec.OUT_OF_RANGE) false st, db))
    by by apply handleValidate_out_of_range.
  rewrite Hr. do 3 (split; [done|]).
  intros lat' lng' uuid' now' Hnear Hok Hfree r'. subst r'. cbn [fst snd].
  rewrite handleValidate_admitted by done. cbn [fst snd].
  do 2 (split; [done|]). by apply device_rows_admitted.
Qed.

(** C7. A validation row stored by the drawer carries no coordinates of
    the observer: the only row [handleValidate] can add is [admitted_row],
    whose [validator_lat] and [validator_lng] are NULL and which is built
    from the sighting id, the fingerprint and the session alone; what is
    stored is the same for every position inside the gate; and the insert of
    the legacy drawer, which sends rounded coordinates, is refused by the
    insert policy and stores nothing. *)
Theorem no_coordinates_persisted db fp s user (geo : Geolocation) uuid (now : Z) st :
  let r := handleValidate user (Some s) geo fp uuid now st db in
  (∀ v : Validation.t, v ∈ validations r.2 →
     v ∈ validations db
     ∨ (v = admitted_row user (Sighting.id s) fp uuid now
        ∧ Validation.validator_lat v = None ∧ Validation.validator_lng v = None
        ∧ Validation.is_within_range v = true))
  ∧ (∀ lat lng lat' lng' : Q,
       isWithinProximity lat lng (Sighting.lat s) (Sighting.lng s) 500 = true →
       isWithinProximity lat' lng' (Sighting.lat s) (Sighting.lng s) 500 = true →
       handleValidate user (Some s) (Position lat lng) fp uuid now st db
       = handleValidate user (Some s) (Position lat' lng') fp uuid now st db)
  ∧ (∀ (randomUUID : string) (token_time hash_time : Z) (b : Privacy.Browser),
       (Drawer.handleValidate_legacy isWithinProximity error_instanceof_Error
          s geo randomUUID token_time hash_time uuid now st b db).2 = db).
Proof.
  intros r. split; [|split].
  - subst r. intros v. unfold Drawer.handleValidate.
    destruct (validating st || validationSuccess st); [by left|].
    destruct geo as [lat lng| |]; [|by left..].
    destruct (negb _); [by left|].
    unfold insert_validation.
    repeat (match goal with |- context [if ?b then _ else _] => destruct b end;
            simpl; try by left).
    rewrite recompute_validations; simpl.
    rewrite elem_of_app, list_elem_of_singleton.
    intros [Hv| ->]; [by left|by right].
  - intros lat lng lat' lng' Hn Hn'. unfold Drawer.handleValidate.
    by rewrite Hn, Hn'.
  - intros randomUUID token_time hash_time b. unfold Drawer.handleValidate_legacy.
    destruct (validating st || validationSuccess st); [done|].
    destruct geo as [lat lng| |]; [|done..].
    destruct (negb _); [done|].
    by destruct (Privacy.generateValidatorHash _ _ _ _ _) as [h b'].
Qed.

(** C6 (what the code does).  [handleConfirm] confirms nothing, whoever
    calls it.  For a signed-in user, whatever the role in their profile, the
    update is refused: the policy [sightings_update_trusted] reads
    [profiles], whose select policy reads [profiles] again, and the
    statement fails with 42P17; the drawer shows that message and the
    sighting stays as it was.  For a visitor who is not signed in the update
    matches no row and the drawer shows success.  The button itself is
    never rendered, because [fetchRole] fails in the same way and leaves
    every signed-in user with the role [anonymous]. *)
Theorem handleConfirm_confirms_nothing db s user st :
  confirming st || confirmSuccess st = false →
  let r := Drawer.handleConfirm user (Some s) st db in
  r.2 = db
  ∧ Drawer.confirm_button_rendered user (View.role_state db user) s = false
  ∧ match user with
    | Some _ => confirmSuccess r.1 = false
                ∧ confirmError r.1 = Some (message infinite_recursion)
    | None => confirmSuccess r.1 = true ∧ confirmError r.1 = None
    end.
Proof.
  intros Hst r. subst r. unfold Drawer.handleConfirm. rewrite Hst.
  split; [by destruct user|]. split; [|by destruct user].
  unfold Drawer.confirm_button_rendered, Drawer.canConfirm, View.role_state, View.fetchRole.
  destruct user as [uid|]; simpl; by rewrite andb_false_r.
Qed.

End DrawerClaims.

(** The drawer offers the confirm button only to a signed-in trusted or
    admin user, and only on a sighting that is verified or active. *)
Remark confirm_button_only_for_trusted (user : option string) (role : option ProfileRole)
    (s : Sighting.t) :
  Drawer.confirm_button_rendered user role s = true →
  is_Some user ∧ (role = Some trusted ∨ role = Some admin)
  ∧ (Sighting.status s = verified ∨ Sighting.status s = active).
Proof.
  unfold Drawer.confirm_button_rendered, Drawer.isVerified, Drawer.canConfirm.
  rewrite !andb_true_iff, !orb_true_iff, negb_true_iff, !bool_decide_eq_true,
    bool_decide_eq_false.
  intros ((Hv & Hc) & Hu & Hr). repeat split; [done|done|].
  destruct Hv as [[?|?]|?]; [by left|by right|done].
Qed.

(** A store without validations satisfies the invariant. *)
Lemma no_rows_one_row_per_device (db : DB) : validations db = [] → one_row_per_device db.
Proof. intros Hnil sid fp. unfold device_rows. rewrite Hnil. simpl. lia. Defined.

Lemma one_validation_per_device_witness :
  let ra := Drawer.handleValidate Sample.near true (Some Sample.alice) (Some Sample.plain)
              Sample.here Sample.fp1 "v1" 1769700100000 Drawer.initial Sample.town in
  let rb := Drawer.handleValidate Sample.near true (Some Sample.bob) (Some Sample.plain)
              Sample.here Sample.fp1 "v2" 1769700200000 Drawer.initial ra.2 in
  validationSuccess ra.1 = true
  ∧ validationError rb.1 = Some Spec.DUPLICATE_DEVICE
  ∧ length (validations rb.2) = 1%nat.
Proof.
  intros ra rb.
  destruct (one_validation_per_device Sample.near true Sample.town Sample.fp1
              Sample.plain Sample.plain (Some Sample.alice) (Some Sample.bob)
              (4071300 # 100000) (-7400610 # 100000) (4071300 # 100000) (-7400610 # 100000)
              "v1" "v2" 1769700100000 1769700200000 Drawer.initial Drawer.initial)
    as ((Ha & _) & (_ & Hb) & Hdb & _ & _).
  - by apply no_rows_one_row_per_device.
  - reflexivity.
  - apply (bool_decide_unpack _). by vm_compute.
  - by vm_compute.
  - reflexivity.
  - reflexivity.
  - by vm_compute.
  - by vm_compute.
  - split; [exact Ha|]. split; [exact Hb|]. by vm_compute.
Defined.

Lemma out_of_range_persists_nothing_witness :
  let r := Drawer.handleValidate Sample.near true None (Some Sample.plain)
             Sample.there Sample.fp1 "v1" 1769700100000 Drawer.initial Sample.town in
  let r' := Drawer.handleValidate Sample.near true None (Some Sample.plain)
              Sample.here Sample.fp1 "v2" 1769700900000 r.1 r.2 in
  validationError r.1 = Some Spec.OUT_OF_RANGE ∧ r.2 = Sample.town
  ∧ validationSuccess r'.1 = true.
Proof.
  intros r r'.
  destruct (out_of_range_persists_nothing Sample.near true Sample.town Sample.fp1
              Sample.plain None (4080000 # 100000) (-7400000 # 100000)
              "v1" 1769700100000 Drawer.initial)
    as (He & _ & Hdb & Hretry); [reflexivity|by vm_compute|].
  split; [exact He|]. split; [exact Hdb|].
  destruct (Hretry (4071300 # 100000) (-7400610 # 100000) "v2" 1769700900000)
    as (Hok & _ & _);
    [by vm_compute|apply (bool_decide_unpack _); by vm_compute|by vm_compute|].
  exact Hok.
Defined.

Lemma no_coordinates_persisted_witness :
  let r := Drawer.handleValidate Sample.near true (Some Sample.alice) (Some Sample.plain)
             Sample.here Sample.fp1 "v1" 1769700100000 Drawer.initial Sample.town in
  validations r.2
  = [Validation.mk "v1" 1769700100000 Sample.sid None None None (Some Sample.alice)
       (Some Sample.fp1) true]
  ∧ Forall (λ v, Validation.validator_lat v = None ∧ Validation.validator_lng v = None)
      (validations r.2).
Proof.
  intros r.
  assert (Hrows : validations r.2
                  = [Validation.mk "v1" 1769700100000 Sample.sid None None None
                       (Some Sample.alice) (Some Sample.fp1) true]) by by vm_compute.
  split; [exact Hrows|].
  apply Forall_forall. intros v Hv.
  destruct (no_coordinates_persisted Sample.near true Sample.town Sample.fp1 Sample.plain
              (Some Sample.alice) Sample.here "v1" 1769700100000 Drawer.initial)
    as (Hnew & _ & _).
  destruct (Hnew v Hv) as [Hold|(_ & Hlat & Hlng & _)]; [|done].
  by apply elem_of_nil in Hold.
Defined.

Lemma handleConfirm_confirms_nothing_witness :
  let s := Store.set_count_status 3 0 Sample.plain in
  let r := Drawer.handleConfirm (Some Sample.alice) (Some s) Drawer.initial
             Sample2.verified_town in
  (role_of (Some Sample.alice) Sample2.verified_town = Some trusted
   ∧ sightings Sample2.verified_town !! Sample.sid = Some s
   ∧ Sighting.status s = verified)
  ∧ r.2 = Sample2.verified_town
  ∧ Drawer.confirm_button_rendered (Some Sample.alice)
      (View.role_state Sample2.verified_town (Some Sample.alice)) s = false
  ∧ confirmSuccess r.1 = false
  ∧ confirmError r.1
    = Some "infinite recursion detected in policy for relation profiles".
Proof.
  intros s r. split; [by vm_compute|].
  exact (handleConfirm_confirms_nothing Sample2.verified_town s (Some Sample.alice)
           Drawer.initial eq_refl).
Defined.

(** * Properties of the legacy device identity *)

Section Identity.

Import Privacy.

Implicit Types (s acc : string) (n radix : Z) (b : Browser).

Lemma length_append s1 s2 :
  String.length (s1 +:+ s2) = (String.length s1 + String.length s2)%nat.
Proof. induction s1 as [|c s1 IH]; simpl; [done|]. by rewrite IH. Qed.

Lemma append_assoc s1 s2 s3 : (s1 +:+ s2) +:+ s3 = s1 +:+ (s2 +:+ s3).
Proof.
  induction s1 as [|c s1 IH]; [done|].
  change (String c ((s1 +:+ s2) +:+ s3) = String c (s1 +:+ s2 +:+ s3)).
  by rewrite IH.
Qed.

Lemma ToInt32_range (x : Z) : - 2 ^ 31 ≤ ToInt32 x < 2 ^ 31.
Proof. unfold ToInt32. pose proof (Z.mod_pos_bound (x + 2 ^ 31) (2 ^ 32)). lia. Qed.

Lemma hash_step_range (h : Z) (c : ascii) : - 2 ^ 31 ≤ hash_step h c < 2 ^ 31.
Proof. unfold hash_step. rewrite Z.land_diag. apply ToInt32_range. Qed.

Lemma hash_loop_range s (h : Z) :
  - 2 ^ 31 ≤ h < 2 ^ 31 → - 2 ^ 31 ≤ hash_loop s h < 2 ^ 31.
Proof.
  revert h. induction s as [|c s IH]; intros h Hh; simpl; [done|].
  apply IH, hash_step_range.
Qed.

(** A number below [radix ^ k] has at most [k] digits. *)
Lemma digits_length (fuel : nat) radix : 2 ≤ radix →
  ∀ (k : nat) n acc, (1 ≤ k)%nat → 0 ≤ n < radix ^ Z.of_nat k →
    (String.length (digits fuel radix n acc) ≤ k + String.length acc)%nat.
Proof.
  intros Hr. induction fuel as [|fuel IH]; intros k n acc Hk Hn; simpl; [lia|].
  destruct (Z.eqb_spec (n `div` radix) 0) as [Hq|Hq]; simpl; [lia|].
  destruct k as [|[|k]]; [lia| |].
  - exfalso. apply Hq. apply Z.div_small. change (Z.of_nat 1) with 1 in Hn. lia.
  - etrans; [apply (IH (S k)); [lia|]|simpl; lia].
    split; [apply Z.div_pos; lia|].
    apply Z.div_lt_upper_bound; [lia|].
    replace (Z.of_nat (S (S k))) with (Z.succ (Z.of_nat (S k))) in Hn by lia.
    rewrite Z.pow_succ_r in Hn by lia. lia.
Qed.

Lemma Number_toString_length radix n (k : nat) : 2 ≤ radix →
  (1 ≤ k)%nat → 0 ≤ n < radix ^ Z.of_nat k →
  (String.length (Number_toString radix n) ≤ k)%nat.
Proof.
  intros Hr Hk Hn. unfold Number_toString.
  destruct (Z.ltb_spec n 0) as [?|_]; [lia|].
  etrans; [by apply (digits_length _ radix Hr k n "")|]. simpl. lia.
Qed.

(** Reading back what [toString(36)] wrote. *)
Lemma digit_value_char (d : Z) : 0 ≤ d < 36 → digit_value (digit_char d) = d.
Proof.
  intros Hd. unfold digit_value, digit_char.
  destruct (Z.ltb_spec d 10) as [Hlt|Hge].
  - rewrite N_ascii_embedding by lia.
    rewrite Z2N.id by lia. destruct (Z.ltb_spec (48 + d) 58); lia.
  - rewrite N_ascii_embedding by lia.
    rewrite Z2N.id by lia. destruct (Z.ltb_spec (87 + d) 58); lia.
Qed.

Lemma parse_digits_append radix s1 s2 (a : Z) :
  parse_digits radix (s1 +:+ s2) a = parse_digits radix s2 (parse_digits radix s1 a).
Proof. revert a. induction s1 as [|c s1 IH]; intros a; simpl; [done|]. apply IH. Qed.

Lemma digits_acc (fuel : nat) radix n acc :
  digits fuel radix n acc = digits fuel radix n "" +:+ acc.
Proof.
  revert n acc. induction fuel as [|fuel IH]; intros n acc; simpl; [done|].
  destruct (n `div` radix =? 0); [done|].
  rewrite IH. rewrite (IH _ (String _ "")).
  by rewrite append_assoc.
Qed.

Lemma parse_digits_digits (fuel : nat) n :
  0 ≤ n < 36 ^ Z.of_nat fuel → parse_digits 36 (digits fuel 36 n "") 0 = n.
Proof.
  revert n. induction fuel as [|fuel IH]; intros n Hn.
  - change (36 ^ Z.of_nat 0) with 1 in Hn. simpl. lia.
  - simpl.
    assert (Hd : digit_value (digit_char (n `mod` 36)) = n `mod` 36)
      by (apply digit_value_char, Z.mod_pos_bound; lia).
    destruct (Z.eqb_spec (n `div` 36) 0) as [Hq|Hq]; simpl.
    + rewrite Hd. pose proof (Z.div_mod n 36). lia.
    + rewrite digits_acc, parse_digits_append. simpl.
      rewrite IH, Hd.
      * pose proof (Z.div_mod n 36). lia.
      * split; [apply Z.div_pos; lia|].
        apply Z.div_lt_upper_bound; [lia|].
        rewrite Nat2Z.inj_succ, Z.pow_succ_r in Hn by lia. lia.
Qed.

Lemma fuel_suffices n : 0 ≤ n → n < 36 ^ Z.of_nat (S (Z.to_nat (Z.log2 n))).
Proof.
  intros Hn. rewrite Nat2Z.inj_succ, Z2Nat.id by apply Z.log2_nonneg.
  destruct (decide (n = 0)) as [->|Hz]; [done|].
  pose proof (Z.log2_spec n) as [_ Hlt]; [lia|].
  eapply Z.lt_le_trans; [exact Hlt|].
  apply Z.pow_le_mono_l. lia.
Qed.

(** The rounds granted are enough: the string written for [n] reads back
    as [n]. *)
Lemma Number_toString_36_value n :
  0 ≤ n → parse_digits 36 (Number_toString 36 n) 0 = n.
Proof.
  intros Hn. unfold Number_toString.
  destruct (Z.ltb_spec n 0); [lia|].
  apply parse_digits_digits. split; [done|by apply fuel_suffices].
Qed.

Lemma Number_toString_36_inj n1 n2 :
  0 ≤ n1 → 0 ≤ n2 → Number_toString 36 n1 = Number_toString 36 n2 → n1 = n2.
Proof.
  intros H1 H2 Heq. apply (f_equal (λ s, parse_digits 36 s 0)) in Heq.
  by rewrite !Number_toString_36_value in Heq.
Qed.

(** What the function does for a browser that holds a token, and for one
    that does not yet. *)
Lemma generateValidatorHash_stored randomUUID (token_time now : Z) sightingId b token :
  has_window b = true →
  localStorage b !! STORAGE_KEY = Some token → token ≠ "" →
  generateValidatorHash randomUUID token_time now sightingId b
  = (Number_toString 36 (Z.abs (hash_loop (token +:+ ":" +:+ sightingId) 0))
       +:+ Number_toString 36 now, b).
Proof.
  intros Hw Hls Hne. unfold generateValidatorHash. rewrite Hw, Hls. simpl.
  by rewrite bool_decide_eq_false_2.
Qed.

Lemma generateValidatorHash_fresh randomUUID (token_time now : Z) sightingId b :
  has_window b = true →
  falsy (localStorage b !! STORAGE_KEY) = true →
  let token := randomUUID +:+ "-" +:+ Number_toString 10 token_time in
  generateValidatorHash randomUUID token_time now sightingId b
  = (Number_toString 36 (Z.abs (hash_loop (token +:+ ":" +:+ sightingId) 0))
       +:+ Number_toString 36 now,
     mkBrowser true (<[STORAGE_KEY := token]> (localStorage b))).
Proof.
  intros Hw Hf token. unfold generateValidatorHash. by rewrite Hw, Hf.
Qed.

(** C8 (the code against the length contract). Whatever the device and
    the sighting, for every clock value from 1970 until the year 5188 the
    identifier [generateValidatorHash] returns has at most 15 characters (6
    digits of the 32-bit hash, 9 of the clock), so it misses the 16 to 256
    characters that the store demands of a [validator_hash] or
    [device_fingerprint]. *)
Theorem generateValidatorHash_too_short
    (randomUUID : string) (token_time now : Z) (sightingId : string) b :
  0 ≤ now < 36 ^ 9 →
  let h := (generateValidatorHash randomUUID token_time now sightingId b).1 in
  Store.char_length h ≤ 15 ∧ Store.between 16 256 (Store.char_length h) = false.
Proof.
  intros Hnow h.
  assert (Hlen : Store.char_length h ≤ 15).
  { subst h. unfold generateValidatorHash.
    destruct (if falsy _ then _ else _) as [token b']; simpl.
    unfold Store.char_length. rewrite length_append.
    pose proof (hash_loop_range (token +:+ ":" +:+ sightingId) 0 ltac:(lia)) as Hh.
    pose proof (Number_toString_length 36
                  (Z.abs (hash_loop (token +:+ ":" +:+ sightingId) 0)) 6
                  ltac:(lia) ltac:(lia)) as H1.
    pose proof (Number_toString_length 36 now 9 ltac:(lia) ltac:(lia) Hnow) as H2.
    change (36 ^ Z.of_nat 6) with 2176782336 in H1.
    specialize (H1 ltac:(lia)). lia. }
  split; [done|].
  unfold Store.between. rewrite (bool_decide_eq_false_2 (16 ≤ _)); [done|lia].
Qed.

(** C9 (the code against the stability contract). In a browser, two calls
    for the same sighting at different clock values return different
    identifiers although the device token in [localStorage] is the same for
    both: the second call finds the token the first one used and leaves the
    browser as it was. *)
Theorem generateValidatorHash_not_stable
    (uuid1 uuid2 : string) (tt1 tt2 t1 t2 : Z) (sightingId : string) b :
  has_window b = true →
  0 ≤ t1 → 0 ≤ t2 → t1 ≠ t2 →
  let r1 := generateValidatorHash uuid1 tt1 t1 sightingId b in
  let r2 := generateValidatorHash uuid2 tt2 t2 sightingId r1.2 in
  r2.2 = r1.2 ∧ r1.1 ≠ r2.1.
Proof.
  intros Hw H1 H2 Hne r1 r2.
  assert (∃ token, token ≠ "" ∧ has_window r1.2 = true
                   ∧ localStorage r1.2 !! STORAGE_KEY = Some token
                   ∧ r1.1 = Number_toString 36
                              (Z.abs (hash_loop (token +:+ ":" +:+ sightingId) 0))
                            +:+ Number_toString 36 t1)
    as (token & Htok & Hw' & Hls & Hr1).
  { subst r1. destruct (falsy (localStorage b !! STORAGE_KEY)) eqn:Hf.
    - rewrite generateValidatorHash_fresh by done. simpl.
      eexists. split; [|split; [done|split; [apply lookup_insert_eq|done]]].
      by destruct uuid1.
    - destruct (localStorage b !! STORAGE_KEY) as [token|] eqn:Hls; [|done].
      simpl in Hf. apply bool_decide_eq_false in Hf.
      rewrite (generateValidatorHash_stored _ _ _ _ _ token) by done.
      by exists token. }
  subst r2. rewrite (generateValidatorHash_stored _ _ _ _ _ token) by done.
  simpl. split; [done|].
  rewrite Hr1. intros Heq. apply (inj _) in Heq.
  by apply Number_toString_36_inj in Heq.
Qed.

End Identity.

Lemma generateValidatorHash_too_short_witness :
  let h := (Privacy.generateValidatorHash "" 0 Sample.clock Sample.sid Sample.browser).1 in
  h = "75x51nmkzxu000" ∧ Store.between 16 256 (Store.char_length h) = false.
Proof.
  intros h. split; [by vm_compute|].
  apply (generateValidatorHash_too_short "" 0 Sample.clock Sample.sid Sample.browser).
  by vm_compute.
Defined.

Lemma generateValidatorHash_not_stable_witness :
  let r1 := Privacy.generateValidatorHash "" 0 Sample.clock Sample.sid Sample.browser in
  let r2 := Privacy.generateValidatorHash "" 0 (Sample.clock + 1) Sample.sid r1.2 in
  (r1.1 = "75x51nmkzxu000" ∧ r2.1 = "75x51nmkzxu001") ∧ r2.2 = r1.2 ∧ r1.1 ≠ r2.1.
Proof.
  intros r1 r2. split; [by vm_compute|].
  apply (generateValidatorHash_not_stable "" "" 0 0 Sample.clock (Sample.clock + 1)
           Sample.sid Sample.browser); [reflexivity|by vm_compute..].
Defined.

(** * Further properties of the trigger and the drawer *)

Section Derived.

Import Store.

Implicit Types (db : DB) (sid : string) (s : Sighting.t).

Lemma filter_ext_elem {A} (P Q : A → Prop)
    `{!∀ x, Decision (P x), !∀ x, Decision (Q x)} (l : list A) :
  (∀ x, x ∈ l → P x ↔ Q x) → filter P l = filter Q l.
Proof.
  induction l as [|x l IH]; intros Hext; [done|].
  rewrite !filter_cons, IH by (intros y Hy; apply Hext; by right).
  assert (Hx : P x ↔ Q x) by (apply Hext; by left).
  repeat case_decide; tauto.
Qed.

(** The sighting the trigger ran for, and every other one. *)
Lemma recompute_lookup_ne db sid sid' :
  sid ≠ sid' →
  sightings (recompute_sighting_validations sid db) !! sid' = sightings db !! sid'.
Proof.
  intros Hne. unfold recompute_sighting_validations.
  case_bool_decide; [done|]. simpl. by rewrite lookup_alter_ne.
Qed.

Lemma recompute_profiles db sid :
  profiles (recompute_sighting_validations sid db) = profiles db
  ∧ auth_users (recompute_sighting_validations sid db) = auth_users db.
Proof. unfold recompute_sighting_validations. by case_bool_decide. Qed.

Lemma recompute_in_step_at db sid :
  in_step_at (recompute_sighting_validations sid db) sid.
Proof.
  intros s' Hs' Hc'. rewrite count_validations_recompute.
  destruct (sightings db !! sid) as [s|] eqn:Hs.
  - destruct (decide (Sighting.status s = confirmed)) as [Hc|Hc].
    + rewrite (recompute_confirmed _ _ _ Hs Hc) in Hs'. congruence.
    + rewrite (recompute_open _ _ _ Hs Hc) in Hs'. simpl in Hs'.
      rewrite lookup_insert_eq in Hs'. by injection Hs' as <-.
  - rewrite (recompute_absent _ _ Hs) in Hs'. congruence.
Qed.

Lemma recompute_keeps_in_step_at db sid sid' :
  in_step_at db sid' → in_step_at (recompute_sighting_validations sid db) sid'.
Proof.
  intros Hin. destruct (decide (sid = sid')) as [->|Hne].
  - apply recompute_in_step_at.
  - intros s. rewrite recompute_lookup_ne, count_validations_recompute by done. apply Hin.
Qed.

Lemma recompute_rows_in_step_at (old : list Validation.t) db sid :
  in_step_at db sid ∨ sid ∈ Validation.sighting_id <$> old →
  in_step_at
    (foldl (λ d v, recompute_sighting_validations (Validation.sighting_id v) d) db old) sid.
Proof.
  revert db. induction old as [|v old IH]; intros db Hin; simpl.
  - destruct Hin as [Hin|Hin]; [done|]. by apply elem_of_nil in Hin.
  - apply IH. destruct Hin as [Hin|Hin].
    + left. by apply recompute_keeps_in_step_at.
    + rewrite fmap_cons, elem_of_cons in Hin. destruct Hin as [->|Hin]; [|by right].
      left. apply recompute_in_step_at.
Qed.

Lemma exec_keeps_in_step db (c : Statement) : in_step db → in_step (exec db c).
Proof.
  intros Hin. destruct c as [who uuid now r|who vid]; simpl.
  - unfold insert_validation.
    set (new := new_validation uuid now r).
    repeat (match goal with |- context [if ?b then _ else _] => destruct b end;
            simpl; try done).
    intros sid. destruct (decide (Validation.sighting_id new = sid)) as [<-|Hne].
    + apply recompute_in_step_at.
    + apply recompute_keeps_in_step_at.
      intros s Hs Hc. unfold count_validations; simpl.
      rewrite filter_app, filter_cons, filter_nil, decide_False, app_nil_r by done.
      by apply Hin.
  - unfold delete_validation. destruct (bypasses_rls who); simpl; [|done].
    intros sid. apply recompute_rows_in_step_at.
    destruct (decide (sid ∈ Validation.sighting_id <$>
                        filter (λ v, Validation.id v = vid) (validations db)))
      as [Hin'|Hout]; [by right|left].
    intros s Hs Hc. unfold count_validations; simpl.
    rewrite list_filter_filter.
    replace (filter (λ v, Validation.sighting_id v = sid ∧ Validation.id v ≠ vid)
               (validations db))
      with (filter (λ v, Validation.sighting_id v = sid) (validations db));
      [by apply Hin|].
    apply filter_ext_elem.
    intros v Hv. split; [|by intros [? _]].
    intros Hsid. split; [done|]. intros Hvid. apply Hout.
    apply list_elem_of_fmap. exists v. split; [done|].
    by apply list_elem_of_filter.
Qed.

End Derived.

Section DerivedFacts.

Import Store.

Variable isWithinProximity : Q → Q → Q → Q → Q → bool.
Variable error_instanceof_Error : bool.

Abbreviation handleValidate :=
  (Drawer.handleValidate isWithinProximity error_instanceof_Error).

Implicit Types (db : DB) (sid fp uuid : string) (s : Sighting.t) (st : DrawerState)
  (user : option string).

(** A store whose reports are as freshly submitted and have no validations
    yet has its derived columns in step. *)
Lemma fresh_in_step db :
  validations db = [] →
  (∀ sid s, sightings db !! sid = Some s →
     Sighting.status s = unverified ∧ Sighting.validations_count s = 0) →
  in_step db.
Proof.
  intros Hnil Hfresh sid s Hs _. destruct (Hfresh sid s Hs) as [-> ->].
  unfold count_validations. rewrite Hnil. simpl.
  unfold promoted_status. by repeat case_bool_decide.
Qed.

(** X1. Through every history of validation inserts and deletes the
    derived columns of each sighting that is not confirmed stay in step with
    the rows: [validations_count] is the number of its validation rows and
    [status] is what the threshold rule gives for that number. *)
Theorem derived_columns_follow_rows db (cs : list Statement) :
  in_step db →
  ∀ sid s, sightings (run cs db) !! sid = Some s → Sighting.status s ≠ confirmed →
    Sighting.validations_count s = count_validations sid (run cs db)
    ∧ Sighting.status s
      = Spec.derived_status (count_validations sid (run cs db))
          (Spec.effectiveThreshold (Z.of_nat (length (Sighting.media s)))).
Proof.
  intros Hin. assert (Hrun : in_step (run cs db)).
  { revert db Hin. unfold run. induction cs as [|c cs IH]; intros db Hin; simpl; [done|].
    apply IH. by apply exec_keeps_in_step. }
  intros sid s Hs Hc. destruct (Hrun sid s Hs Hc) as [Hn Hst].
  split; [done|]. by rewrite <- promoted_status_threshold.
Qed.

(** X2. A sighting that is verified on the strength of its rows stays
    verified, and its rows never become fewer, through every history of
    statements on [validations] (inserts and deletes; updates of
    [sightings] are no part of these histories) in which no privileged
    session deletes: ordinary clients cannot delete validations, and
    inserts only add to the count. *)
Theorem verified_survives_client_histories db sid s (cs : list Statement) :
  sightings db !! sid = Some s →
  Sighting.status s = verified →
  Spec.effectiveThreshold (Z.of_nat (length (Sighting.media s))) ≤ count_validations sid db →
  Forall unprivileged_delete cs →
  ∃ s', sightings (run cs db) !! sid = Some s'
        ∧ Sighting.status s' = verified
        ∧ count_validations sid db ≤ count_validations sid (run cs db).
Proof.
  intros Hs Hv Hth Hcs.
  set (th := Spec.effectiveThreshold (Z.of_nat (length (Sighting.media s)))) in *.
  assert (Hinv : ∃ s', sightings db !! sid = Some s' ∧ Sighting.status s' = verified
                       ∧ Sighting.media s' = Sighting.media s
                       ∧ th ≤ count_validations sid db
                       ∧ count_validations sid db ≤ count_validations sid db)
    by (exists s; repeat split; try done; lia).
  revert Hinv. generalize (count_validations sid db) at 2 4 as n0.
  intros n0 Hinv. clear Hs Hv Hth. revert db Hinv. unfold run.
  induction Hcs as [|c cs Hc _ IH]; intros db (s' & Hs' & Hv' & Hm & Hth & Hn0); simpl.
  { exists s'. repeat split; try done. }
  apply IH. destruct c as [who uuid now r|who vid]; simpl.
  - unfold insert_validation. set (new := new_validation uuid now r).
    repeat (match goal with |- context [if ?b then _ else _] => destruct b end;
            simpl; try by (exists s'; repeat split)).
    set (db1 := mkDB _ _ _ _).
    destruct (decide (ins_sighting_id r = sid)) as [Heq|Hne].
    + rewrite Heq.
      assert (Hc1 : count_validations sid db1 = count_validations sid db + 1).
      { unfold count_validations, db1; simpl.
        rewrite filter_app, filter_cons, filter_nil, decide_True, length_app by done.
        simpl. lia. }
      assert (Hnc : Sighting.status s' ≠ confirmed) by (rewrite Hv'; discriminate).
      rewrite (recompute_open db1 sid s' Hs' Hnc).
      eexists. split; [apply lookup_insert_eq|]. simpl.
      rewrite promoted_status_threshold, Hm. fold th.
      unfold Spec.derived_status. rewrite bool_decide_eq_true_2 by lia.
      repeat split; try done; unfold count_validations in *; simpl in *; lia.
    + exists s'. rewrite recompute_lookup_ne, count_validations_recompute by done.
      assert (Hc1 : count_validations sid db1 = count_validations sid db).
      { unfold count_validations, db1; simpl.
        by rewrite filter_app, filter_cons, filter_nil, decide_False, app_nil_r. }
      rewrite Hc1. by repeat split.
  - simpl in Hc. unfold delete_validation. rewrite Hc. simpl.
    exists s'. by repeat split.
Qed.

(** X3. [handleValidate] is all or nothing: either the database is left
    exactly as it was, or the validation succeeded, one row was appended,
    and nothing but the sighting validated was touched. *)
Theorem handleValidate_all_or_nothing user s (geo : Geolocation) fp uuid (now : Z) st db :
  let r := handleValidate user (Some s) geo fp uuid now st db in
  r.2 = db
  ∨ (validationSuccess r.1 = true ∧ validationError r.1 = None
     ∧ validations r.2
       = (validations db ++ [admitted_row user (Sighting.id s) fp uuid now])%list
     ∧ profiles r.2 = profiles db ∧ auth_users r.2 = auth_users db
     ∧ ∀ sid', sid' ≠ Sighting.id s → sightings r.2 !! sid' = sightings db !! sid').
Proof.
  intros r. subst r. unfold Drawer.handleValidate.
  destruct (validating st || validationSuccess st); [by left|].
  destruct geo as [lat lng| |]; [|by left..].
  destruct (negb _); [by left|].
  unfold insert_validation.
  repeat (match goal with |- context [if ?b then _ else _] => destruct b end;
          simpl; try by left).
  right. rewrite recompute_validations.
  destruct (recompute_profiles
              (mkDB (sightings db)
                 (validations db ++ [admitted_row user (Sighting.id s) fp uuid now])
                 (profiles db) (auth_users db)) (Sighting.id s)) as [Hp Ha].
  repeat split; try done.
  intros sid' Hne. by rewrite recompute_lookup_ne.
Qed.

(** X4. Validations of a confirmed sighting are still admitted and stored,
    but its row is frozen: afterwards the sighting has one validation row
    more while [validations_count] is what it was. *)
Theorem validation_after_confirmation_not_counted
    user s (row : Sighting.t) (lat lng : Q) fp uuid (now : Z) st db :
  sightings db !! Sighting.id s = Some row →
  Sighting.status row = confirmed →
  validating st || validationSuccess st = false →
  isWithinProximity lat lng (Sighting.lat s) (Sighting.lng s) 500 = true →
  acceptable user (Sighting.id s) fp uuid db →
  device_rows (Sighting.id s) fp db = [] →
  let r := handleValidate user (Some s) (Position lat lng) fp uuid now st db in
  validationSuccess r.1 = true
  ∧ sightings r.2 !! Sighting.id s = Some row
  ∧ count_validations (Sighting.id s) r.2 = count_validations (Sighting.id s) db + 1.
Proof.
  intros Hrow Hc Hst Hnear Hok Hfree r. subst r.
  rewrite handleValidate_admitted by done. cbn [fst snd].
  split; [done|].
  rewrite count_validations_recompute.
  split; [by apply recompute_keeps_confirmed|].
  unfold count_validations; simpl.
  rewrite filter_app, filter_cons, filter_nil, decide_True, length_app by done.
  simpl. lia.
Qed.

(** X7. For a row as the trigger writes it the drawer is consistent with
    the store: the validate section is rendered exactly when validations are
    still needed, and the number needed is never above the threshold. *)
Theorem validate_section_matches_status s :
  0 ≤ Sighting.validations_count s →
  Sighting.status s
  = promoted_status (Sighting.validations_count s) (Z.of_nat (length (Sighting.media s))) →
  (View.validate_section_rendered s = true ↔ 0 < View.validationsNeeded s)
  ∧ 0 ≤ View.validationsNeeded s ≤ 3.
Proof.
  intros Hn Hs.
  unfold View.validate_section_rendered, Drawer.isVerified, View.validationsNeeded,
    View.validationThreshold.
  rewrite Hs. unfold promoted_status.
  destruct (Sighting.media s) as [|m ms]; simpl;
    repeat case_bool_decide; simpl; split; try split; try lia; try done;
    intros; lia.
Qed.

(** X8. The count the drawer announces after a successful validation is
    right: if the sighting shown is the stored row, in step and not yet
    verified, then the row the trigger writes needs exactly
    [validationsNeeded - 1] more validations. *)
Theorem needed_after_validation user s (lat lng : Q) fp uuid (now : Z) st db :
  sightings db !! Sighting.id s = Some s →
  in_step_at db (Sighting.id s) →
  View.validate_section_rendered s = true →
  validating st || validationSuccess st = false →
  isWithinProximity lat lng (Sighting.lat s) (Sighting.lng s) 500 = true →
  acceptable user (Sighting.id s) fp uuid db →
  device_rows (Sighting.id s) fp db = [] →
  let r := handleValidate user (Some s) (Position lat lng) fp uuid now st db in
  ∃ s', sightings r.2 !! Sighting.id s = Some s'
        ∧ View.validationsNeeded s' = View.validationsNeeded s - 1
        ∧ 0 ≤ View.validationsNeeded s'.
Proof.
  intros Hs Hin Hshown Hst Hnear Hok Hfree r. subst r.
  rewrite handleValidate_admitted by done. cbn [fst snd].
  assert (Hnc : Sighting.status s ≠ confirmed).
  { unfold View.validate_section_rendered, Drawer.isVerified in Hshown.
    intros Hc. rewrite Hc in Hshown. done. }
  destruct (Hin s Hs Hnc) as [Hcnt Hstat].
  set (db1 := mkDB _ _ _ _).
  assert (Hc1 : count_validations (Sighting.id s) db1
                = count_validations (Sighting.id s) db + 1).
  { unfold count_validations, db1; simpl.
    rewrite filter_app, filter_cons, filter_nil, decide_True, length_app by done.
    simpl. lia. }
  rewrite (recompute_open db1 (Sighting.id s) s Hs Hnc).
  eexists. split; [apply lookup_insert_eq|].
  assert (Hpos : 0 ≤ count_validations (Sighting.id s) db)
    by (unfold count_validations; lia).
  unfold View.validationsNeeded, View.validationThreshold; simpl.
  rewrite Hc1, Hcnt.
  unfold View.validate_section_rendered, Drawer.isVerified in Hshown.
  rewrite Hstat in Hshown. unfold promoted_status in Hshown.
  destruct (Sighting.media s) as [|m ms]; simpl in *;
    repeat case_bool_decide; simpl in *; try done; lia.
Qed.

End DerivedFacts.

(** * Properties of the live map *)

Section LiveMapFacts.

Import LiveMap.

Implicit Types (shown : list Sighting.t) (s new : Sighting.t) (db : DB).

Lemma on_change_update_ids new shown :
  Sighting.id <$> on_change (UPDATE new) shown = Sighting.id <$> shown.
Proof.
  simpl. rewrite <- list_fmap_compose. apply list_fmap_ext.
  intros i s _. simpl. by case_bool_decide.
Qed.

Lemma NoDup_fmap_filter {A B} (f : A → B) (P : A → Prop) `{!∀ x, Decision (P x)}
    (l : list A) :
  NoDup (f <$> l) → NoDup (f <$> filter P l).
Proof.
  induction l as [|x l IH]; simpl; [done|].
  rewrite NoDup_cons. intros [Hx Hl]. rewrite filter_cons.
  case_decide; [|by apply IH].
  rewrite fmap_cons. apply NoDup_cons. split; [|by apply IH].
  intros (y & Hy & Hin)%list_elem_of_fmap. apply list_elem_of_filter in Hin as [_ Hin].
  apply Hx. apply list_elem_of_fmap. by exists y.
Qed.

(** X9. The callback keeps the list on screen a faithful copy of the
    table: if the list showed the table before a change and the payload
    reports that change (an insert of a new id, an update of a stored id, or
    a delete), the updated list shows the table after it, every row once. *)
Theorem on_change_mirrors (payload : Payload) shown db :
  mirrors shown db →
  match payload with
  | INSERT new => sightings db !! Sighting.id new = None
  | UPDATE new => is_Some (sightings db !! Sighting.id new)
  | DELETE _ => True
  end →
  mirrors (on_change payload shown) (Store.with_sightings (replay payload) db).
Proof.
  intros [Hnd Hin] Hp. unfold mirrors, Store.with_sightings.
  destruct payload as [new|new|old_id]; simpl in *.
  - split.
    + rewrite ?fmap_cons. apply NoDup_cons. split; [|done].
      intros (s & Hid & Hs)%list_elem_of_fmap.
      assert (sightings db !! Sighting.id s = Some s) by by apply Hin.
      congruence.
    + intros k s. rewrite elem_of_cons.
      destruct (decide (Sighting.id new = k)) as [<-|Hne].
      * rewrite lookup_insert_eq. split.
        -- intros [= ->]. split; [by left|done].
        -- intros [[->|Hs] Hk]; [done|].
           assert (sightings db !! Sighting.id new = Some s) by by apply Hin.
           congruence.
      * rewrite lookup_insert_ne by done. rewrite Hin. split.
        -- intros [Hs Hk]. split; [by right|done].
        -- intros [[->|Hs] Hk]; done.
  - destruct Hp as [old Hold]. apply Hin in Hold as [Hold Hoid]. split.
    + change (NoDup (Sighting.id <$> on_change (UPDATE new) shown)).
      by rewrite on_change_update_ids.
    + intros k s. rewrite list_elem_of_fmap.
      destruct (decide (Sighting.id new = k)) as [<-|Hne].
      * rewrite lookup_insert_eq. split.
        -- intros [= ->]. split; [|done]. exists old.
           by rewrite bool_decide_eq_true_2.
        -- intros [(s0 & Hs & Hs0) Hk]. case_bool_decide as Hid; [by rewrite Hs|].
           subst s0. congruence.
      * rewrite lookup_insert_ne by done. rewrite Hin. split.
        -- intros [Hs Hk]. split; [|done]. exists s.
           rewrite bool_decide_eq_false_2; [done|congruence].
        -- intros [(s0 & Hs & Hs0) Hk]. case_bool_decide as Hid; [congruence|by subst].
  - split.
    + by apply NoDup_fmap_filter.
    + intros k s. rewrite list_elem_of_filter.
      destruct (decide (old_id = k)) as [<-|Hne].
      * rewrite lookup_delete_eq. split; [done|]. by intros [[Hid _] Hk].
      * rewrite lookup_delete_ne by done. rewrite Hin. split.
        -- intros [Hs Hk]. split; [split; [congruence|done]|done].
        -- by intros [[_ Hs] Hk].
Qed.

(** X10. Only the status [verified] earns the red marker: a sighting that
    is [active] or has been [confirmed] by a trusted verifier is drawn like
    an unverified one, grey once its event lies more than 24 hours back. *)
Theorem marker_icon_verified_only (now : Z) s :
  (marker_icon now s = VerifiedIcon ↔ Sighting.status s = verified)
  ∧ (Sighting.status s = confirmed ∨ Sighting.status s = active →
     marker_icon now s
     = if bool_decide (Sighting.event_time s < now - 86400000)
       then HistoricalIcon else UnverifiedIcon).
Proof.
  unfold marker_icon. split.
  - case_bool_decide; [done|]. split; [|done]. by case_bool_decide.
  - intros [Hs|Hs]; rewrite Hs; simpl; reflexivity.
Qed.

End LiveMapFacts.

(** * Properties of roles, sign-up and invitations *)

Section RolesFacts.

Import Roles.

Implicit Types (db : DB) (adb : AuthDB) (user : option string) (uid id : string).







Lemma invited_iff (new_email : option string) adb :
  existsb (λ kv, matches new_email kv.1) (map_to_list (pending_invites adb)) = true
  ↔ ∃ email, is_Some (pending_invites adb !! email) ∧ matches new_email email = true.
Proof.
  rewrite existsb_exists. split.
  - intros ([email inv] & Hin & Hm). exists email. split; [|done].
    exists inv. apply elem_of_map_to_list. by apply list_elem_of_In.
  - intros (email & [inv Hinv] & Hm). exists (email, inv). split; [|done].
    apply list_elem_of_In. by apply elem_of_map_to_list.
Qed.

(** What [handle_new_user] leaves behind. *)
Lemma handle_new_user_spec new_id (new_email : option string) (now : Z) adb adb' :
  handle_new_user new_id new_email now adb = AuthOk adb' →
  let invited := existsb (λ kv, matches new_email kv.1) (map_to_list (pending_invites adb)) in
  profiles (base adb') !! new_id
  = Some (Profile.mk new_id (if invited then trusted else anonymous) now)
  ∧ (∀ uid, uid ≠ new_id → profiles (base adb') !! uid = profiles (base adb) !! uid)
  ∧ (∀ email, pending_invites adb' !! email
              = if matches new_email email then None else pending_invites adb !! email)
  ∧ sightings (base adb') = sightings (base adb)
  ∧ validations (base adb') = validations (base adb).
Proof.
  unfold handle_new_user. destruct (profiles (base adb) !! new_id) eqn:Hp; [done|].
  destruct (existsb _ _) eqn:Hinv; intros [= <-]; simpl.
  - split; [by rewrite lookup_alter_eq, lookup_insert_eq|].
    split; [intros uid Hne; by rewrite lookup_alter_ne, lookup_insert_ne|].
    split; [|done].
    intros email. rewrite map_lookup_filter.
    destruct (pending_invites adb !! email) as [inv|] eqn:Hl; simpl.
    + destruct (matches new_email email) eqn:Hm.
      * rewrite option_guard_False; [done|]. simpl. congruence.
      * by rewrite option_guard_True.
    + by destruct (matches new_email email).
  - split; [by rewrite lookup_insert_eq|].
    split; [intros uid Hne; by rewrite lookup_insert_ne|].
    split; [|done].
    intros email. destruct (matches new_email email) eqn:Hm; [|done].
    destruct (pending_invites adb !! email) as [inv|] eqn:Hl; [|done].
    exfalso. apply not_true_iff_false in Hinv. apply Hinv. apply invited_iff.
    exists email. split; [by exists inv|done].
Qed.

Lemma create_user_spec new_id (new_email : option string) (now : Z) adb adb' :
  create_user new_id new_email now adb = AuthOk adb' →
  (∃ role, profiles (base adb') !! new_id = Some (Profile.mk new_id role now)
           ∧ (role = trusted ∨ role = anonymous)
           ∧ (role = trusted
              ↔ ∃ email, is_Some (pending_invites adb !! email)
                         ∧ matches new_email email = true))
  ∧ (∀ uid, uid ≠ new_id → profiles (base adb') !! uid = profiles (base adb) !! uid)
  ∧ (∀ email, pending_invites adb' !! email
              = if matches new_email email then None else pending_invites adb !! email).
Proof.
  unfold create_user. case_bool_decide; [done|].
  intros H'. apply handle_new_user_spec in H'. simpl in H'.
  destruct H' as (Hnew & Hothers & Hinv & _). split; [|done].
  eexists. split; [exact Hnew|]. rewrite <- invited_iff.
  destruct (existsb _ _); split; auto; split; [done|done|discriminate|discriminate].
Qed.


(** X12. An invitation is used up by the first sign-up it matches: a
    second user who signs up with the same address is [anonymous]. *)
Theorem invitation_is_one_shot id1 id2 (e : string) (now1 now2 : Z) adb adb1 adb2 :
  create_user id1 (Some e) now1 adb = AuthOk adb1 →
  create_user id2 (Some e) now2 adb1 = AuthOk adb2 →
  Profile.role <$> profiles (base adb2) !! id2 = Some anonymous.
Proof.
  intros H1 H2.
  apply create_user_spec in H1 as (_ & _ & Hinv1).
  apply create_user_spec in H2 as ((role & Hrole & [-> | ->] & Hiff) & _ & _);
    [|by rewrite Hrole].
  exfalso. destruct Hiff as [Hiff _].
  destruct (Hiff eq_refl) as (email & [inv Hinv] & Hm).
  rewrite Hinv1, Hm in Hinv. discriminate.
Qed.

(** X13. No role change made on the admin page reaches the store.  For a
    signed-in user, admin or not, the update of [profiles] is refused with
    42P17 (its policy reads [profiles], whose select policy reads [profiles]
    again): the page shows that message and its list stays as it was.
    Without a session the update matches no row, yet the list on the page
    shows the new role. *)
Theorem handleRoleChange_reaches_no_profile user id (newRole : ProfileRole) (now : Z)
    (st : AdminState) db :
  let r := handleRoleChange user id newRole now st db in
  r.2 = db
  ∧ updatingId r.1 = None
  ∧ match user with
    | Some _ => error r.1 = Some (message Store.infinite_recursion)
                ∧ shown r.1 = shown st
    | None => error r.1 = None
              ∧ row_role <$> shown r.1
                = (λ p, if bool_decide (row_id p = id) then newRole else row_role p)
                  <$> shown st
    end.
Proof.
  intros r. subst r. unfold handleRoleChange.
  destruct user as [uid|]; simpl; [done|].
  repeat split. rewrite <- list_fmap_compose. apply list_fmap_ext.
  intros i p _. simpl. by case_bool_decide.
Qed.

End RolesFacts.

Section InviteRouteFacts.

Import Roles InviteRoute.

Variable createClient : string → string → option string.
Variable setSession : Field → Field → Outcome.
Variable inviteUserByEmail : string → option string → AuthDB → option string * AuthDB.
Variable origin : string → option string.

Abbreviation getAnonClient := (InviteRoute.getAnonClient createClient).
Abbreviation POST := (InviteRoute.POST createClient setSession inviteUserByEmail origin).

Implicit Types (adb : AuthDB) (body : Body) (env : Env).

(** X15. The route never records an invitation and never calls the auth
    service to invite: every request is answered 400, 401, 403 or 500 with
    an error text, and the database is left as it was.  Even a request that
    carries a valid address and the tokens of a session is answered 403,
    whatever the profile of its user says, because the route reads the
    profile as that user and the read fails. *)
Theorem POST_never_invites env body (referer : option string) (now : Z) adb :
  let r := POST env body referer now adb in
  r.2 = adb
  ∧ is_Some (error r.1)
  ∧ (status r.1 = 400 ∨ status r.1 = 401 ∨ status r.1 = 403 ∨ status r.1 = 500)
  ∧ ∀ e a t uid,
      body = Props (Str e) a t →
      Text.js_trim e ≠ "" → Text.includes "@" (Text.js_trim e) = true →
      falsy a = false → falsy t = false →
      getAnonClient env = None →
      setSession a t = SessionOf uid →
      r.1 = mkResponse 403 (Some "Admin only").
Proof.
  intros r. subst r. unfold InviteRoute.POST, failed.
  destruct body as [text|text|em a t];
    [simpl; split; [done|]; split; [by eexists|]; split; [by auto|];
     intros; discriminate..|].
  simpl.
  split; [|split; [|split]].
  - repeat (case_match; simpl; try done).
  - repeat (case_match; simpl; try done); by eexists.
  - repeat (case_match; simpl; try done); by auto.
  - intros e a' t' uid [= -> <- <-] Hne Hat Ha Ht Hcl Hs.
    rewrite (bool_decide_eq_false_2 (Text.js_trim e = "")) by done.
    by rewrite Hat, Ha, Ht, Hcl, Hs.
Qed.


End InviteRouteFacts.

(** * Properties of submitting sightings *)

Section ReportsFacts.

Import Reports.

Implicit Types (db : DB) (r : SightingInsert) (s : Sighting.t).

(** What a successful insert does. *)
Lemma insert_sighting_ok who (uuid : string) (now : Z) r db db' :
  insert_sighting who uuid now r db = Ok db' →
  sightings db !! uuid = None
  ∧ sightings_checks (new_sighting uuid now r) = true
  ∧ db' = Store.with_sightings (insert uuid (new_sighting uuid now r)) db.
Proof.
  unfold insert_sighting.
  destruct (negb (from_option _ _ _)); [done|].
  destruct (negb (_ || _)); [done|].
  destruct (sightings_checks _) eqn:Hchk; [|done]. simpl.
  case_bool_decide as Hk; [done|]. intros [= <-].
  split; [|done]. destruct (sightings db !! uuid) eqn:Hl; [|done].
  exfalso. apply Hk. by eexists.
Qed.

(** X17. The insert policy and the checks of [sightings] look at the
    coordinates and the text lengths only: an insert that is accepted is
    accepted just the same with any [status] and any [validations_count]
    that fits the [integer] column, and the row is stored with them, so an
    anonymous client can file a report that is already confirmed. *)
Theorem insert_accepts_any_status who (uuid : string) (now : Z) r db db'
    (st : SightingStatus) (n : Z) :
  insert_sighting who uuid now r db = Ok db' →
  int4 n = true →
  ∃ db'' s,
    insert_sighting who uuid now
      (mkSightingInsert (si_event_time r) (si_lat r) (si_lng r) (si_activity_type r)
         (si_notes r) (si_media r) (Some st) (Some n)) db = Ok db''
    ∧ sightings db'' !! uuid = Some s
    ∧ Sighting.status s = st ∧ Sighting.validations_count s = n.
Proof.
  unfold insert_sighting, sightings_checks, sightings_insert_anon, new_sighting. simpl.
  destruct (negb (from_option _ _ _)); [done|].
  destruct (negb (_ || _)); [done|].
  destruct (negb _); [done|].
  case_bool_decide as Hk; [done|]. intros _ ->. simpl.
  eexists _, _. split; [done|]. simpl. by rewrite lookup_insert_eq.
Qed.

End ReportsFacts.

Section ImportFacts.

Import Reports CsvImport.

Variable parseFloat : string → option Q.
Variable parseDate : string → option Z.
Variable error_instanceof_Error : bool.

Abbreviation parse_row := (CsvImport.parse_row parseFloat parseDate).
Abbreviation import_from :=
  (CsvImport.import_from parseFloat parseDate error_instanceof_Error).
Abbreviation importSightings :=
  (CsvImport.importSightings parseFloat parseDate error_instanceof_Error).

Implicit Types (db : DB) (records : list CSVRow) (acc : Summary).

(** A row that passes the script's checks asks for no status and no count. *)
Lemma parse_row_plain (row : CSVRow) r :
  parse_row row = inr r → si_status r = None ∧ si_validations_count r = None.
Proof.
  unfold CsvImport.parse_row.
  repeat (match goal with
          | |- context [match ?x with _ => _ end] => destruct x
          end; try done); by intros [= <-].
Qed.

Lemma import_progress_error (i n : nat) acc res (msg : string) :
  import_progress (S i) n
    (mkSummary (successCount acc) (errors acc ++ [(Z.of_nat i + 2, msg)]) (after acc)) res →
  import_progress i (S n) acc res.
Proof.
  intros (Hle & Hcount & Hsize & (es & Hes & Hbound & Hsort) & Hv & Hp & Hold & Hnew).
  simpl in *. rewrite length_app in Hcount. simpl in Hcount.
  split; [lia|]. split; [lia|]. split; [lia|]. split; [|done].
  exists ((Z.of_nat i + 2, msg) :: es). rewrite Hes, <- app_assoc. split; [done|]. split.
  - apply Forall_cons. split; [simpl; lia|].
    eapply Forall_impl; [exact Hbound|]. intros e ?; simpl in *. lia.
  - apply SSorted_cons; [done|].
    eapply Forall_impl; [exact Hbound|]. intros e ?; simpl in *. lia.
Qed.

Lemma import_progress_ok (i n : nat) acc res (uuid : string) (t : Z) (r : SightingInsert) db' :
  si_status r = None → si_validations_count r = None →
  insert_sighting service_role uuid t r (after acc) = Ok db' →
  import_progress (S i) n (mkSummary (successCount acc + 1) (errors acc) db') res →
  import_progress i (S n) acc res.
Proof.
  intros Hst Hn Hins (Hle & Hcount & Hsize & (es & Hes & Hbound & Hsort) & Hv & Hp & Hold & Hnew).
  apply insert_sighting_ok in Hins as (Hfree & Hchk & ->). simpl in *.
  rewrite map_size_insert_None in Hsize by done.
  split; [lia|]. split; [lia|]. split; [lia|]. split.
  { exists es. split; [done|]. split; [|done].
    eapply Forall_impl; [exact Hbound|]. intros e ?; simpl in *. lia. }
  split; [done|]. split; [done|]. split.
  - intros k s Hk. apply Hold.
    rewrite lookup_insert_ne; [done|]. intros ->. congruence.
  - intros k s Hk. destruct (Hnew k s Hk) as [Hin|Hsub]; [|by right].
    destruct (decide (uuid = k)) as [->|Hne].
    + rewrite lookup_insert_eq in Hin. injection Hin as <-. right.
      unfold as_submitted, new_sighting. simpl. rewrite Hst, Hn.
      split; [done|]. split; [done|].
      unfold new_sighting in Hchk. by rewrite Hst, Hn in Hchk.
    + rewrite lookup_insert_ne in Hin by done. by left.
Qed.

Lemma import_from_spec (uuids : nat → string) (now : nat → Z) records (i : nat) acc :
  import_progress i (length records) acc (import_from uuids now i records acc).
Proof.
  revert i acc. induction records as [|row rest IH]; intros i acc.
  { simpl. split; [lia|]. split; [lia|]. split; [lia|]. split.
    - exists []. rewrite app_nil_r. split; [done|]. split; constructor.
    - split; [done|]. split; [done|]. split; [done|]. intros k s Hk. by left. }
  simpl. destruct (parse_row row) as [msg|r] eqn:Hrow.
  - eapply import_progress_error, IH.
  - destruct (parse_row_plain row r Hrow) as [Hst Hn].
    destruct (insert_sighting service_role (uuids i) (now i) r (after acc))
      as [db'|e] eqn:Hins.
    + eapply import_progress_ok; [done|done|exact Hins|apply IH].
    + eapply import_progress_error, IH.
Qed.

(** X18. The import accounts for every record: each one is either
    inserted or reported, the table grows by exactly the number of
    successes, and the reported row numbers are those of the CSV file (the
    header is row 1), in increasing order. *)
Theorem importSightings_accounts (uuids : nat → string) (now : nat → Z) records db :
  let res := importSightings uuids now records db in
  successCount res + Z.of_nat (length (errors res)) = Z.of_nat (length records)
  ∧ 0 ≤ successCount res
  ∧ Z.of_nat (size (sightings (after res)))
    = Z.of_nat (size (sightings db)) + successCount res
  ∧ Forall (λ e, 2 ≤ e.1 ≤ Z.of_nat (length records) + 1) (errors res)
  ∧ StronglySorted (λ a b, a.1 < b.1) (errors res).
Proof.
  intros res. subst res. unfold CsvImport.importSightings.
  destruct (import_from_spec uuids now records 0 (mkSummary 0 [] db))
    as (Hle & Hcount & Hsize & (es & Hes & Hbound & Hsort) & _).
  simpl in *. rewrite Hes in Hcount |- *. simpl.
  split; [lia|]. split; [lia|]. split; [lia|]. split; [|done].
  eapply Forall_impl; [exact Hbound|]. intros e ?; simpl in *. lia.
Qed.

(** X19. The import only adds: validations, profiles and the sightings
    already stored are left as they were, and every sighting it adds is as a
    form would submit it, unverified, with no validations counted and with
    fields that pass the checks of the table. *)
Theorem importSightings_only_adds (uuids : nat → string) (now : nat → Z) records db :
  let res := importSightings uuids now records db in
  validations (after res) = validations db
  ∧ profiles (after res) = profiles db
  ∧ (∀ k s, sightings db !! k = Some s → sightings (after res) !! k = Some s)
  ∧ (∀ k s, sightings (after res) !! k = Some s →
        sightings db !! k = Some s ∨ as_submitted s).
Proof.
  intros res. subst res. unfold CsvImport.importSightings.
  destruct (import_from_spec uuids now records 0 (mkSummary 0 [] db))
    as (_ & _ & _ & _ & Hv & Hp & Hold & Hnew).
  done.
Qed.

End ImportFacts.

Section ReportPageFacts.

Import Reports ReportPage.

Variable Bucket : Type.
Variable upload : string → string → Bucket → option string * Bucket.
Variable parseDate : string → option Z.
Variable error_instanceof_Error : bool.

Abbreviation upload_all := (ReportPage.upload_all Bucket upload).
Abbreviation handleSubmit :=
  (ReportPage.handleSubmit Bucket upload parseDate error_instanceof_Error).

(** When every upload succeeds, [mediaUrls] lists the files in order. *)
Lemma upload_all_ok (files : list Upload) (bucket bucket' : Bucket)
    (acc mediaUrls : list MediaItem) :
  upload_all files bucket acc = (None, bucket', mediaUrls) →
  mediaUrls = (acc ++ ((λ f, mkMediaItem (file_path f) (file_type f)) <$> files))%list.
Proof.
  revert bucket acc. induction files as [|f rest IH]; intros bucket acc; simpl.
  - intros [= _ <-]. by rewrite app_nil_r.
  - destruct (scrub_error f); [done|].
    destruct (upload _ _ _) as [[msg|] b1]; [done|].
    intros Hrest. apply IH in Hrest. by rewrite Hrest, <- app_assoc.
Qed.

Lemma no_number_false (x : option Q) :
  no_number x = false → ∃ q, x = Some q ∧ ¬ (q == 0)%Q.
Proof.
  destruct x as [q|]; [|done]. simpl. intros Hq. exists q. split; [done|].
  intros Heq. apply Qeq_bool_iff in Heq. congruence.
Qed.

(** X20. The report form changes the table only by adding one sighting,
    and only when it reports success; that sighting is unverified with no
    validations counted, passes the checks of the table, lists the uploaded
    files in order, and has neither latitude 0 nor longitude 0: a place on
    the equator or on the prime meridian is treated as no location. *)
Theorem handleSubmit_adds_one_report (user : option string) (lat lng : option Q)
    (activityType notes eventTime : string) (mediaFiles : list Upload)
    (uuid : string) (now : Z) (st : FormState) (bucket : Bucket) (db : DB) :
  let r := handleSubmit user lat lng activityType notes eventTime mediaFiles uuid now
             st bucket db in
  (r.2 = db ∧ is_Some (error r.1.1) ∧ success r.1.1 = success st)
  ∨ (error r.1.1 = None ∧ success r.1.1 = true
     ∧ sightings db !! uuid = None
     ∧ ∃ s, r.2 = Store.with_sightings (insert uuid s) db
            ∧ as_submitted s
            ∧ ¬ (Sighting.lat s == 0)%Q ∧ ¬ (Sighting.lng s == 0)%Q
            ∧ Sighting.media s
              = (λ f, mkMediaItem (file_path f) (file_type f)) <$> mediaFiles).
Proof.
  intros r. subst r. unfold ReportPage.handleSubmit.
  destruct (no_number lat) eqn:Hlat; simpl; [left; by eauto|].
  destruct (no_number lng) eqn:Hlng; simpl; [left; by eauto|].
  case_bool_decide; [left; by eauto|].
  destruct (ReportPage.upload_all _ _ _ _ _) as [[[msg|] bucket'] mediaUrls] eqn:Hup;
    [left; by eauto|].
  destruct (parseDate eventTime) as [t|]; [|left; by eauto].
  destruct (insert_sighting _ _ _ _ _) as [db'|e] eqn:Hins; [|left; by eauto].
  right. simpl. apply insert_sighting_ok in Hins as (Hfree & Hchk & ->).
  apply upload_all_ok in Hup. simpl in Hup. subst mediaUrls.
  apply no_number_false in Hlat as (qa & -> & Hqa).
  apply no_number_false in Hlng as (qb & -> & Hqb).
  do 3 (split; [done|]). eexists. split; [done|].
  unfold as_submitted. simpl. by repeat split.
Qed.

End ReportPageFacts.

Section MiscFacts.

Import Privacy.

(** X21. In a browser the device token is created once: after any call
    [localStorage] holds a token that is not empty, every later call leaves
    the browser as it is, draws nothing from the random source, and for the
    same sighting at the same clock value returns the same identifier. *)
Theorem device_token_created_once (u1 : string) (tt1 t1 : Z) (sid : string) (b : Browser) :
  has_window b = true →
  let r1 := generateValidatorHash u1 tt1 t1 sid b in
  (∃ token, localStorage r1.2 !! STORAGE_KEY = Some token ∧ token ≠ "")
  ∧ ∀ (u2 u3 : string) (tt2 tt3 t2 : Z) (sid2 : string),
      (generateValidatorHash u2 tt2 t2 sid2 r1.2).2 = r1.2
      ∧ generateValidatorHash u2 tt2 t2 sid2 r1.2 = generateValidatorHash u3 tt3 t2 sid2 r1.2
      ∧ (generateValidatorHash u2 tt2 t1 sid r1.2).1 = r1.1.
Proof.
  intros Hw r1.
  assert (∃ token, token ≠ "" ∧ has_window r1.2 = true
                   ∧ localStorage r1.2 !! STORAGE_KEY = Some token
                   ∧ r1.1 = Number_toString 36
                              (Z.abs (hash_loop (token +:+ ":" +:+ sid) 0))
                            +:+ Number_toString 36 t1)
    as (token & Htok & Hw' & Hls & Hr1).
  { subst r1. destruct (falsy (localStorage b !! STORAGE_KEY)) eqn:Hf.
    - rewrite generateValidatorHash_fresh by done. simpl.
      eexists. split; [|split; [done|split; [apply lookup_insert_eq|done]]].
      by destruct u1.
    - destruct (localStorage b !! STORAGE_KEY) as [token|] eqn:Hls; [|done].
      simpl in Hf. apply bool_decide_eq_false in Hf.
      rewrite (generateValidatorHash_stored _ _ _ _ _ token) by done.
      by exists token. }
  split; [by exists token|].
  intros u2 u3 tt2 tt3 t2 sid2.
  rewrite !(generateValidatorHash_stored _ _ _ _ _ token) by done.
  by rewrite Hr1.
Qed.

(** X22. [formatTimeAgo] never overstates and never shows a zero: a date
    less than a minute back, or in the future, reads "Just now"; otherwise
    the label carries the whole minutes (1 to 59), else the whole hours (1
    to 23), else the whole days elapsed. *)
Theorem formatTimeAgo_label (date now : Z) :
  let d := now - date in
  (d < 60000 ∧ Home.formatTimeAgo (Some date) now = "Just now")
  ∨ (∃ n, 1 ≤ n ≤ 59 ∧ n * 60000 ≤ d < (n + 1) * 60000
          ∧ Home.formatTimeAgo (Some date) now = Number_toString 10 n +:+ "m ago")
  ∨ (∃ n, 1 ≤ n ≤ 23 ∧ n * 3600000 ≤ d < (n + 1) * 3600000
          ∧ Home.formatTimeAgo (Some date) now = Number_toString 10 n +:+ "h ago")
  ∨ (∃ n, 1 ≤ n ∧ n * 86400000 ≤ d < (n + 1) * 86400000
          ∧ Home.formatTimeAgo (Some date) now = Number_toString 10 n +:+ "d ago").
Proof.
  intros d. unfold Home.formatTimeAgo. fold d.
  pose proof (Z.div_mod d 60000 ltac:(lia)) as Hm.
  pose proof (Z.mod_pos_bound d 60000 ltac:(lia)) as Hm'.
  pose proof (Z.div_mod d 3600000 ltac:(lia)) as Hh.
  pose proof (Z.mod_pos_bound d 3600000 ltac:(lia)) as Hh'.
  pose proof (Z.div_mod d 86400000 ltac:(lia)) as Hd.
  pose proof (Z.mod_pos_bound d 86400000 ltac:(lia)) as Hd'.
  destruct (Z.ltb_spec (d `div` 60000) 1) as [H1|H1]; [left; split; [lia|done]|].
  destruct (Z.ltb_spec (d `div` 60000) 60) as [H2|H2].
  { right; left. exists (d `div` 60000). repeat split; try done; lia. }
  destruct (Z.ltb_spec (d `div` 3600000) 24) as [H3|H3].
  { right; right; left. exists (d `div` 3600000). repeat split; try done; lia. }
  right; right; right. exists (d `div` 86400000). repeat split; try done; lia.
Qed.

(** X23. Replacing the trigger function changed nothing for reports
    without media that are not confirmed: on them the function of the first
    migration and the current one leave the same database. *)
Theorem recompute_agrees_with_v1 (db : DB) (sid : string) (s : Sighting.t) :
  sightings db !! sid = Some s →
  Sighting.status s ≠ confirmed →
  Sighting.media s = [] →
  StoreV1.recompute_sighting_validations sid db
  = Store.recompute_sighting_validations sid db.
Proof.
  intros Hs Hc Hm. rewrite (recompute_open _ _ _ Hs Hc).
  unfold StoreV1.recompute_sighting_validations, Store.with_sightings. f_equal.
  rewrite (alter_alt_Some _ _ _ _ Hs). f_equal.
  unfold Store.set_count_status, Store.promoted_status. rewrite Hm. simpl.
  by case_bool_decide.
Qed.

End MiscFacts.

(** * The further properties on the sample data *)

Lemma town_in_step : in_step Sample.town.
Proof.
  apply fresh_in_step; [done|].
  intros sid s Hs. change (sightings Sample.town) with
    ({[ Sample.sid := Sample.plain ]} : gmap string Sighting.t) in Hs.
  apply lookup_singleton_Some in Hs as [_ <-]. done.
Defined.

Lemma derived_columns_follow_rows_witness :
  let db := run Sample.three_votes Sample.town in
  let s := Store.set_count_status 3 0 Sample.plain in
  sightings db !! Sample.sid = Some s
  ∧ Sighting.validations_count s = Store.count_validations Sample.sid db
  ∧ Sighting.status s
    = Spec.derived_status (Store.count_validations Sample.sid db)
        (Spec.effectiveThreshold (Z.of_nat (length (Sighting.media s)))).
Proof.
  intros db s.
  assert (Hs : sightings db !! Sample.sid = Some s) by by vm_compute.
  split; [exact Hs|].
  apply (derived_columns_follow_rows Sample.town Sample.three_votes
           town_in_step Sample.sid s Hs).
  discriminate.
Defined.

Lemma verified_survives_client_histories_witness :
  let cs := [ InsertValidation anon "v4" 1769700400000 (Sample.vote Sample2.fp4);
              DeleteValidation (authenticated Sample.bob) "v1";
              DeleteValidation anon "v2" ] in
  ∃ s', sightings (run cs Sample2.verified_town) !! Sample.sid = Some s'
        ∧ Sighting.status s' = verified.
Proof.
  intros cs.
  destruct (verified_survives_client_histories Sample2.verified_town Sample.sid
              (Store.set_count_status 3 0 Sample.plain) cs)
    as (s' & Hs' & Hv & _).
  - by vm_compute.
  - reflexivity.
  - by vm_compute.
  - repeat constructor.
  - exists s'. split; [exact Hs'|exact Hv].
Defined.

Lemma validation_after_confirmation_not_counted_witness :
  let db := Sample2.confirmed_town in
  let r := Drawer.handleValidate Sample.near true None (Some Sample.plain) Sample.here
             Sample.fp1 "v1" 1769700100000 Drawer.initial db in
  Sighting.validations_count <$> sightings r.2 !! Sample.sid = Some 0
  ∧ Store.count_validations Sample.sid r.2 = 1.
Proof.
  intros db r.
  destruct (validation_after_confirmation_not_counted Sample.near true None Sample.plain
              (Store.set_status confirmed Sample.plain)
              (4071300 # 100000) (-7400610 # 100000) Sample.fp1 "v1" 1769700100000
              Drawer.initial db) as (_ & Hrow & Hcount).
  - by vm_compute.
  - reflexivity.
  - reflexivity.
  - by vm_compute.
  - apply (bool_decide_unpack _). by vm_compute.
  - by vm_compute.
  - split.
    + change (Sighting.id Sample.plain) with Sample.sid in Hrow.
      subst r. unfold Sample.here. by rewrite Hrow.
    + exact Hcount.
Defined.

Lemma validate_section_matches_status_witness :
  View.validate_section_rendered Sample.plain = true
  ∧ View.validationsNeeded Sample.plain = 3.
Proof.
  destruct (validate_section_matches_status Sample.plain) as [Hiff _];
    [by vm_compute|reflexivity|].
  split; [|reflexivity]. apply Hiff. by vm_compute.
Defined.

Lemma needed_after_validation_witness :
  let r := Drawer.handleValidate Sample.near true None (Some Sample.plain) Sample.here
             Sample.fp1 "v1" 1769700100000 Drawer.initial Sample.town in
  ∃ s', sightings r.2 !! Sample.sid = Some s' ∧ View.validationsNeeded s' = 2.
Proof.
  intros r.
  destruct (needed_after_validation Sample.near true None Sample.plain
              (4071300 # 100000) (-7400610 # 100000) Sample.fp1 "v1" 1769700100000
              Drawer.initial Sample.town) as (s' & Hs' & Hn & _).
  - by vm_compute.
  - apply town_in_step.
  - reflexivity.
  - reflexivity.
  - by vm_compute.
  - apply (bool_decide_unpack _). by vm_compute.
  - by vm_compute.
  - exists s'. split; [exact Hs'|]. rewrite Hn. reflexivity.
Defined.

Lemma town_mirrored : LiveMap.mirrors [Sample.plain] Sample.town.
Proof.
  split; [repeat constructor; by intros ?%elem_of_nil|].
  intros k s. change (sightings Sample.town) with
    ({[ Sample.sid := Sample.plain ]} : gmap string Sighting.t).
  rewrite lookup_singleton_Some, list_elem_of_singleton.
  split; [by intros [<- <-]|by intros [-> <-]].
Defined.

Lemma on_change_mirrors_witness :
  let payload := LiveMap.UPDATE (Store.set_status confirmed Sample.plain) in
  LiveMap.mirrors (LiveMap.on_change payload [Sample.plain])
    (Store.with_sightings (LiveMap.replay payload) Sample.town).
Proof.
  intros payload. apply on_change_mirrors; [apply town_mirrored|].
  exists Sample.plain. by vm_compute.
Defined.


Lemma invitation_is_one_shot_witness :
  let invited :=
    mkAuthDB Sample2.office ∅ {[ "dave@example.org" := Invite.mk Sample2.carol 0 ]} in
  ∃ adb1 adb2,
    Roles.create_user Sample2.dave (Some "Dave@Example.org") 1 invited = AuthOk adb1
    ∧ Roles.create_user Sample2.erin (Some "Dave@Example.org") 2 adb1 = AuthOk adb2
    ∧ Profile.role <$> profiles (base adb1) !! Sample2.dave = Some trusted
    ∧ Profile.role <$> profiles (base adb2) !! Sample2.erin = Some anonymous.
Proof.
  intros invited.
  set (get := λ r, match r with AuthOk a => a | AuthErr _ => invited end).
  set (adb1 := get (Roles.create_user Sample2.dave (Some "Dave@Example.org") 1 invited)).
  set (adb2 := get (Roles.create_user Sample2.erin (Some "Dave@Example.org") 2 adb1)).
  assert (H1 : Roles.create_user Sample2.dave (Some "Dave@Example.org") 1 invited
               = AuthOk adb1) by (vm_compute; reflexivity).
  assert (H2 : Roles.create_user Sample2.erin (Some "Dave@Example.org") 2 adb1
               = AuthOk adb2) by (vm_compute; reflexivity).
  exists adb1, adb2. split; [exact H1|]. split; [exact H2|]. split; [by vm_compute|].
  exact (invitation_is_one_shot _ _ _ _ _ _ _ _ H1 H2).
Defined.

Lemma POST_never_invites_witness :
  let r := InviteRoute.POST Sample2.createClient Sample2.setSession
             Sample2.inviteUserByEmail Sample2.origin
             Sample2.env Sample2.invitation (Some "https://iceout.example/admin")
             Sample2.invited_at Sample2.registry in
  Profile.role <$> profiles (base Sample2.registry) !! Sample2.carol = Some admin
  ∧ r.2 = Sample2.registry
  ∧ r.1 = InviteRoute.mkResponse 403 (Some "Admin only").
Proof.
  intros r. split; [by vm_compute|].
  destruct (POST_never_invites Sample2.createClient Sample2.setSession
              Sample2.inviteUserByEmail Sample2.origin
              Sample2.env Sample2.invitation (Some "https://iceout.example/admin")
              Sample2.invited_at Sample2.registry)
    as (Hdb & _ & _ & Hadmin).
  split; [exact Hdb|].
  apply (Hadmin " Dave@Example.org " (InviteRoute.Str "access-carol")
           (InviteRoute.Str "refresh-carol") Sample2.carol);
    by vm_compute.
Defined.


Lemma insert_accepts_any_status_witness :
  ∃ db'' s,
    Reports.insert_sighting anon "s9" 7
      (mkSightingInsert None (4071280 # 100000) (-7400600 # 100000) "Presence"
         None None (Some confirmed) (Some 99)) Sample.town = Ok db''
    ∧ sightings db'' !! "s9" = Some s
    ∧ Sighting.status s = confirmed ∧ Sighting.validations_count s = 99.
Proof.
  set (r := mkSightingInsert None (4071280 # 100000) (-7400600 # 100000) "Presence"
              None None None None).
  set (res := Reports.insert_sighting anon "s9" 7 r Sample.town).
  set (db' := match res with Ok d => d | Err _ => Sample.town end).
  assert (Hins : res = Ok db') by (vm_compute; reflexivity).
  exact (insert_accepts_any_status anon "s9" 7 r Sample.town db' confirmed 99 Hins
           eq_refl).
Defined.

Lemma device_token_created_once_witness :
  let r1 := Privacy.generateValidatorHash "3f2b8c1e-5d4a-4e6f-9a7b-0c1d2e3f4a5b"
              1769700000000 Sample.clock Sample.sid (Privacy.mkBrowser true ∅) in
  r1.2 = Sample.browser
  ∧ (Privacy.generateValidatorHash "another" 5 Sample.clock Sample.sid r1.2).1 = r1.1.
Proof.
  intros r1. split; [by vm_compute|].
  destruct (device_token_created_once "3f2b8c1e-5d4a-4e6f-9a7b-0c1d2e3f4a5b"
              1769700000000 Sample.clock Sample.sid (Privacy.mkBrowser true ∅) eq_refl)
    as [_ Hlater].
  destruct (Hlater "another" "" 5 0 Sample.clock Sample.sid) as (_ & _ & Hsame).
  exact Hsame.
Defined.

Lemma recompute_agrees_with_v1_witness :
  StoreV1.recompute_sighting_validations Sample.sid Sample2.verified_town
  = Store.recompute_sighting_validations Sample.sid Sample2.verified_town.
Proof.
  apply (recompute_agrees_with_v1 Sample2.verified_town Sample.sid
           (Store.set_count_status 3 0 Sample.plain));
    [by vm_compute|discriminate|reflexivity].
Defined.
